(** * Project tracker (TS_DragAndDrop): store, validation, list views

    A shallow embedding of the TypeScript sources of the project-tracking
    page.  The repository holds three revisions of [app.ts]:

    - [src/TS_DragAndDrop/src/app.ts]: earliest; a store without listeners;
    - [src/unnamed/part_001]: store with listeners, list views that neither
      filter the snapshot nor clear the list before drawing;
    - [src/unnamed/part_000]: latest; list views filter by status and clear
      the [<ul>] before drawing.

    [validate], [Project], [ProjectState.addListener], [ProjectState.addProject]
    and [ProjectInput] are textually the same in part_000 and part_001 and
    are embedded once.  The list views differ and are embedded per revision
    in [Module Part000] and [Module Part001]. *)

From Stdlib Require Import Ascii String QArith Qcanon.
From stdpp Require Import gmap strings list.

Local Open Scope string_scope.
Local Open Scope list_scope.

(** ** JavaScript values used by the program *)

Module JS.

(** A JavaScript string is a sequence of UTF-16 code units and [.length]
    counts code units.  The embedding covers the strings whose code units
    are all below 256: one [ascii] per code unit, [String.length] for
    [.length]. *)

(** [number]: an IEEE double.  A finite double is represented by the
    rational it denotes ([-0] is identified with [0]; the program only
    compares and stores numbers, it never does arithmetic on them). *)
Inductive number :=
| NaN
| NegInfinity
| Infinity
| Finite (q : Qc).

Definition int (z : Z) : number := Finite (Q2Qc (inject_Z z)).
Definition of_nat (n : nat) : number := int (Z.of_nat n).

(** [a < b] on numbers: false as soon as one side is [NaN]. *)
Definition lt (a b : number) : bool :=
  match a, b with
  | NaN, _ | _, NaN => false
  | Finite x, Finite y => match (x ?= y)%Qc with Lt => true | _ => false end
  | NegInfinity, NegInfinity => false
  | NegInfinity, _ => true
  | _, NegInfinity => false
  | Infinity, _ => false
  | _, Infinity => true
  end.

(** [a > b] is [b < a]. *)
Definition gt (a b : number) : bool := lt b a.

(** The code units below 256 that [String.prototype.trim] and the
    string-to-number conversion treat as white space or line terminator:
    TAB, LF, VT, FF, CR, SPACE, NBSP. *)
Definition is_white_space (c : ascii) : bool :=
  let n := nat_of_ascii c in
  ((9 <=? n)%nat && (n <=? 13)%nat) || (n =? 32)%nat || (n =? 160)%nat.

Fixpoint trimStart (s : string) : string :=
  match s with
  | EmptyString => EmptyString
  | String c s' => if is_white_space c then trimStart s' else s
  end.

Definition trimEnd (s : string) : string := String.rev (trimStart (String.rev s)).

(** [s.trim()] *)
Definition trim (s : string) : string := trimEnd (trimStart s).

(** *** String to number: the unary [+] applied to a string

    StringToNumber of ECMAScript: white space is trimmed; the empty string
    is [0]; otherwise the text must be a complete StrNumericLiteral (signed
    decimal with optional fraction and exponent, [Infinity], or an unsigned
    binary, octal or hexadecimal integer), or else the result is [NaN].  The
    rational of a literal is its exact value: rounding to the nearest
    double, and with it overflow to [Infinity] of literals beyond the range
    of doubles, is not modelled. *)

Definition digit_value (c : ascii) : option Z :=
  let n := nat_of_ascii c in
  if (48 <=? n)%nat && (n <=? 57)%nat then Some (Z.of_nat (n - 48))
  else if (97 <=? n)%nat && (n <=? 102)%nat then Some (Z.of_nat (n - 87))
  else if (65 <=? n)%nat && (n <=? 70)%nat then Some (Z.of_nat (n - 55))
  else None.

(** Longest prefix of digits in [base], as (value, number of digits, rest). *)
Fixpoint digits (base : Z) (s : string) (acc : Z) (count : nat) : Z * nat * string :=
  match s with
  | EmptyString => (acc, count, s)
  | String c s' =>
      match digit_value c with
      | Some d => if (d <? base)%Z then digits base s' (acc * base + d)%Z (S count)
                  else (acc, count, s)
      | None => (acc, count, s)
      end
  end.

(** [0b..], [0o..], [0x..] (either case of the letter), no sign allowed. *)
Definition non_decimal (s : string) : option number :=
  match s with
  | String "0" (String p s') =>
      let base :=
        if bool_decide (p = "b"%char ∨ p = "B"%char) then Some 2%Z
        else if bool_decide (p = "o"%char ∨ p = "O"%char) then Some 8%Z
        else if bool_decide (p = "x"%char ∨ p = "X"%char) then Some 16%Z
        else None in
      match base with
      | Some b =>
          match digits b s' 0%Z 0 with
          | (v, S _, EmptyString) => Some (int v)
          | _ => None
          end
      | None => None
      end
  | _ => None
  end.

Definition pow10 (e : Z) : Q := Qpower (10 # 1) e.

(** ExponentPart: [e] or [E], an optional sign, at least one digit. *)
Definition exponent (s : string) : option Z :=
  match s with
  | EmptyString => Some 0%Z
  | String c s' =>
      if bool_decide (c = "e"%char ∨ c = "E"%char) then
        let '(neg, s'') :=
          match s' with
          | String "-" r => (true, r)
          | String "+" r => (false, r)
          | _ => (false, s')
          end in
        match digits 10 s'' 0%Z 0 with
        | (v, S _, EmptyString) => Some (if neg then (- v)%Z else v)
        | _ => None
        end
      else None
  end.

(** StrUnsignedDecimalLiteral, as a non-negative rational or [Infinity]. *)
Definition unsigned_decimal (s : string) : option (option Q) :=
  if bool_decide (s = "Infinity") then Some None
  else
    let '(ip, icount, r) := digits 10 s 0%Z 0 in
    let '(fp, fcount, r') :=
      match r with
      | String "." r1 => digits 10 r1 0%Z 0
      | _ => (0%Z, 0, r)
      end in
    let dotted := match r with String "." _ => true | _ => false end in
    if bool_decide (icount = 0 ∧ fcount = 0) then None
    else if bool_decide (dotted = false ∧ icount = 0) then None
    else
      match exponent r' with
      | Some e =>
          Some (Some ((inject_Z ip + inject_Z fp * pow10 (- Z.of_nat fcount)) * pow10 e)%Q)
      | None => None
      end.

Definition decimal (s : string) : option number :=
  let '(neg, s') :=
    match s with
    | String "-" r => (true, r)
    | String "+" r => (false, r)
    | _ => (false, s)
    end in
  match unsigned_decimal s' with
  | Some None => Some (if neg then NegInfinity else Infinity)
  | Some (Some q) => Some (Finite (Q2Qc (if neg then - q else q)))
  | None => None
  end.

(** [+s] for a string [s]. *)
Definition to_number (s : string) : number :=
  let t := trim s in
  if bool_decide (t = "") then int 0
  else match non_decimal t with
       | Some n => n
       | None => match decimal t with
                 | Some n => n
                 | None => NaN
                 end
       end.

(** "positive integer" on numbers. *)
Definition is_positive_integer (n : number) : bool :=
  match n with
  | Finite q => match (0 ?= q)%Qc with Lt => Pos.eqb (Qden q) 1 | _ => false end
  | _ => false
  end.

End JS.


(** ** Data model *)

Inductive ProjectStatus := Active | Finished.

#[global] Instance ProjectStatus_eq_dec : EqDecision ProjectStatus.
Proof. solve_decision. Defined.

(** [class Project]: five public fields set by the constructor. *)
Record Project := mkProject {
  id : string;
  title : string;
  description : string;
  people : JS.number;
  status : ProjectStatus
}.

(** ** Validation *)

(** [value: string | number] *)
Inductive Value :=
| Str (s : string)
| Num (n : JS.number).

(** [interface Validatable]: an optional property is [None] when absent
    (or [undefined]). *)
Record Validatable := mkValidatable {
  value : Value;
  required : option bool;
  minLength : option JS.number;
  maxLength : option JS.number;
  min : option JS.number;
  max : option JS.number
}.

(** [object.value.toString().trim().length !== 0].  For a number,
    [toString] gives [NaN], [Infinity], [-Infinity] or a numeral, which is
    never empty and never only white space. *)
Definition not_blank (v : Value) : bool :=
  match v with
  | Str s => negb (String.length (JS.trim s) =? 0)%nat
  | Num _ => true
  end.

(** [if (object.required)]: absent and [false] are both falsy. *)
Definition truthy (b : option bool) : bool :=
  match b with Some true => true | _ => false end.

Definition validate (object : Validatable) : bool :=
  let isValid := true in
  let isValid :=
    if truthy (required object) then isValid && not_blank (value object)
    else isValid in
  let isValid :=
    match minLength object, value object with
    | Some m, Str s => isValid && JS.gt (JS.of_nat (String.length s)) m
    | _, _ => isValid
    end in
  let isValid :=
    match maxLength object, value object with
    | Some m, Str s => isValid && JS.lt (JS.of_nat (String.length s)) m
    | _, _ => isValid
    end in
  let isValid :=
    match min object, value object with
    | Some m, Num n => isValid && JS.gt n m
    | _, _ => isValid
    end in
  let isValid :=
    match max object, value object with
    | Some m, Num n => isValid && JS.lt n m
    | _, _ => isValid
    end in
  isValid.

(** The configuration [gatherUserInput] builds for the title. *)
Definition titleValidatable (enteredTitle : string) : Validatable :=
  {| value := Str enteredTitle;
     required := Some true;
     minLength := Some (JS.int 5);
     maxLength := Some (JS.int 15);
     min := None;
     max := None |}.

(** ** The observable store *)

(** How a call ended: it returned, or an exception escaped it. *)
Inductive completion := Normal | Throw.

Section State.

(** [W] is the part of the page a listener acts on.  A listener receives
    the array it is called with and changes [W]; it does not call back
    into the store. *)
Context {W : Type}.

(** [type Listener<T> = (items: T[]) => void] *)
Definition Listener : Type := list Project → W → W * completion.

(** [class ProjectState extends State<Project>] *)
Record ProjectState := mkProjectState {
  listeners : list Listener;
  projects : list Project
}.

(** [new ProjectState], what [getInstance] returns on first access. *)
Definition getInstance : ProjectState :=
  {| listeners := []; projects := [] |}.

(** [this.listeners.push(listenerFN)] *)
Definition addListener (listenerFN : Listener) (this : ProjectState) : ProjectState :=
  {| listeners := listeners this ++ [listenerFN]; projects := projects this |}.

(** [for (const listenerFN of this.listeners) listenerFN(items)]: an
    exception thrown by a listener ends the loop. *)
Fixpoint notify (ls : list Listener) (items : list Project) (w : W) : W * completion :=
  match ls with
  | [] => (w, Normal)
  | listenerFN :: rest =>
      match listenerFN items w with
      | (w', Normal) => notify rest items w'
      | (w', Throw) => (w', Throw)
      end
  end.

(** [addProject(title, description, numOfPeople)].  [rnd] is the string
    [Math.random().toString()] evaluates to in this call.  Lists are values,
    so the list passed to [notify] stands for the copy
    [this.projects.slice()]; [Module Refs] below has the same method with
    the array and the records as shared objects. *)
Definition addProject (rnd : string) (title description : string) (numOfPeople : JS.number)
    (this : ProjectState) (w : W) : ProjectState * W * completion :=
  let newProject := mkProject rnd title description numOfPeople Active in
  let this := {| listeners := listeners this; projects := projects this ++ [newProject] |} in
  let '(w, c) := notify (listeners this) (projects this) w in
  (this, w, c).

End State.

Arguments Listener : clear implicits.
Arguments ProjectState : clear implicits.

(** ** The page: document, list views, input form *)

(** [type: 'active' | 'finished'], the constructor parameter of
    [ProjectList]. *)
Inductive ProjectListType := active | finished.

#[global] Instance ProjectListType_eq_dec : EqDecision ProjectListType.
Proof. solve_decision. Defined.

Definition type_name (t : ProjectListType) : string :=
  match t with active => "active" | finished => "finished" end.

(** [`${this.type}-project-list`] *)
Definition listId (t : ProjectListType) : string :=
  String.append (type_name t) "-project-list".

(** The state of the page outside the store.

    - [document] maps the id of a [<ul>] to the [textContent] of its [<li>]
      children, in document order ([getElementById] is the lookup);
    - [activePrjLiist] and [finishedPrjLiist] hold the [assignedProjects]
      of the two [ProjectList] instances of the same names;
    - the three [...InputElement] fields hold the [.value] of the inputs of
      [prjInput];
    - [alerts] is the list of messages [alert] has shown, oldest first. *)
Record Page := mkPage {
  document : gmap string (list string);
  activePrjLiist : list Project;
  finishedPrjLiist : list Project;
  titleInputElement : string;
  descriptionInputElement : string;
  peopleInputElement : string;
  alerts : list string
}.

Definition assignedProjects (t : ProjectListType) (pg : Page) : list Project :=
  match t with active => activePrjLiist pg | finished => finishedPrjLiist pg end.

(** [this.assignedProjects = ps] in the view of type [t]. *)
Definition set_assignedProjects (t : ProjectListType) (ps : list Project) (pg : Page) : Page :=
  match t with
  | active =>
      mkPage (document pg) ps (finishedPrjLiist pg) (titleInputElement pg)
        (descriptionInputElement pg) (peopleInputElement pg) (alerts pg)
  | finished =>
      mkPage (document pg) (activePrjLiist pg) ps (titleInputElement pg)
        (descriptionInputElement pg) (peopleInputElement pg) (alerts pg)
  end.

Definition set_document (doc : gmap string (list string)) (pg : Page) : Page :=
  mkPage doc (activePrjLiist pg) (finishedPrjLiist pg) (titleInputElement pg)
    (descriptionInputElement pg) (peopleInputElement pg) (alerts pg).

(** [listEl.appendChild(listItem)] with [listItem.textContent = text]. *)
Definition appendChild (listEl : string) (text : string)
    (doc : gmap string (list string)) : gmap string (list string) :=
  alter (λ items, items ++ [text]) listEl doc.

(** The loop of [renderProjects], the same in both revisions:
    one new [<li>] per assigned project, carrying its title. *)
Definition appendItems (listEl : string) (assigned : list Project)
    (doc : gmap string (list string)) : gmap string (list string) :=
  foldl (λ d prjItem, appendChild listEl (title prjItem) d) doc assigned.

(** The whole program state: the singleton store and the page. *)
Record App := mkApp {
  projectState : ProjectState Page;
  page : Page
}.

(** *** ProjectInput *)

(** [alert(msg)] *)
Definition alert (msg : string) (pg : Page) : Page :=
  mkPage (document pg) (activePrjLiist pg) (finishedPrjLiist pg) (titleInputElement pg)
    (descriptionInputElement pg) (peopleInputElement pg) (alerts pg ++ [msg]).

(** [gatherUserInput(): [string, string, number] | void] *)
Definition gatherUserInput (pg : Page) : Page * option (string * string * JS.number) :=
  let enteredTitle := titleInputElement pg in
  let enteredDescription := descriptionInputElement pg in
  let enteredPeople := peopleInputElement pg in
  if negb (validate (titleValidatable enteredTitle)) then
    (alert "Invalid user input!" pg, None)
  else
    (pg, Some (enteredTitle, enteredDescription, JS.to_number enteredPeople)).

Definition clearInputs (pg : Page) : Page :=
  mkPage (document pg) (activePrjLiist pg) (finishedPrjLiist pg) "" "" "" (alerts pg).

(** [submitHandler(event)].  [rnd] is what [Math.random().toString()]
    yields should [addProject] be reached.  When a listener throws, the
    exception leaves [addProject] and the handler, so [clearInputs] is
    skipped. *)
Definition submitHandler (rnd : string) (a : App) : App * completion :=
  let '(pg, userInput) := gatherUserInput (page a) in
  match userInput with
  | Some (title, desc, people) =>
      let '(st, pg, c) := addProject rnd title desc people (projectState a) pg in
      match c with
      | Normal => (mkApp st (clearInputs pg), Normal)
      | Throw => (mkApp st pg, Throw)
      end
  | None => (mkApp (projectState a) pg, Normal)
  end.

(** *** Construction *)

(** Modelled from the spec: [index.html], which holds the templates
    [project-input] and [project-list], is not among the sources.  The
    [<ul>] of the list template is taken to be empty, as the end-to-end
    properties of the specification require (no item is shown before the
    first submission). *)
Definition template_ul : list string := [].

(** [new ProjectList(t)]: the section is attached, the listener [listenerFN]
    is registered, and [renderContent] gives the [<ul>] its id.  Both
    revisions do these three things. *)
Definition new_ProjectList (listenerFN : Listener Page) (t : ProjectListType) (a : App) : App :=
  mkApp (addListener listenerFN (projectState a))
        (set_document (<[listId t := template_ul]> (document (page a)))
           (set_assignedProjects t [] (page a))).

(** The state before the three top-level [new] expressions have run: the
    store as [getInstance] creates it, nothing in the document, the inputs
    of the form template empty. *)
Definition start : App :=
  mkApp getInstance (mkPage ∅ [] [] "" "" "" []).

(** [new ProjectInput(); new ProjectList('active'); new ProjectList('finished')] *)
Definition boot (configure : ProjectListType → Listener Page) : App :=
  new_ProjectList (configure finished) finished
    (new_ProjectList (configure active) active start).

(** *** Events *)

(** What happens to the page: the user edits the three inputs, or submits
    the form. *)
Inductive Event :=
| UserInput (enteredTitle enteredDescription enteredPeople : string)
| Submit (rnd : string).

Definition step (e : Event) (a : App) : App :=
  match e with
  | UserInput t d p =>
      mkApp (projectState a)
        (mkPage (document (page a)) (activePrjLiist (page a)) (finishedPrjLiist (page a))
           t d p (alerts (page a)))
  | Submit rnd => fst (submitHandler rnd a)
  end.

Definition run (es : list Event) (a : App) : App := foldl (λ a e, step e a) a es.

(** ** The list views of [src/unnamed/part_000] *)

Module Part000.

(** [renderProjects()].  [listEl] is [null] when no element has the id,
    and [listEl.innerHTML = ''] then throws. *)
Definition renderProjects (t : ProjectListType) (pg : Page) : Page * completion :=
  match document pg !! listId t with
  | None => (pg, Throw)
  | Some _ =>
      let doc := <[listId t := []]> (document pg) in
      (set_document (appendItems (listId t) (assignedProjects t pg) doc) pg, Normal)
  end.

(** The arrow function [configure()] passes to [addListener]. *)
Definition configure (t : ProjectListType) : Listener Page :=
  λ projects pg,
    let relevantProjects :=
      List.filter
        (λ x, match t with
              | active => bool_decide (status x = Active)
              | finished => bool_decide (status x = Finished)
              end)
        projects in
    let pg := set_assignedProjects t relevantProjects pg in
    renderProjects t pg.

Definition boot : App := boot configure.

End Part000.

(** ** The list views of [src/unnamed/part_001] *)

Module Part001.

(** [renderProjects()]: no clearing; [listEl] is only dereferenced inside
    the loop, so a missing element throws only if there is a project to
    draw. *)
Definition renderProjects (t : ProjectListType) (pg : Page) : Page * completion :=
  match assignedProjects t pg, document pg !! listId t with
  | [], _ => (pg, Normal)
  | _ :: _, None => (pg, Throw)
  | _ :: _, Some _ =>
      (set_document (appendItems (listId t) (assignedProjects t pg) (document pg)) pg, Normal)
  end.

(** The arrow function the constructor passes to [addListener]. *)
Definition listener (t : ProjectListType) : Listener Page :=
  λ projects pg,
    let pg := set_assignedProjects t projects pg in
    renderProjects t pg.

Definition boot : App := boot listener.

End Part001.

(** ** The store at the level of object references

    [this.projects.slice()] copies the array, not the [Project] objects in
    it.  To see what a listener can reach through the array it is handed,
    arrays and records live in a heap here and the store holds a reference
    to its array. *)

Module Refs.

(** Two kinds of objects: [Project[]] arrays, which hold references to
    records, and [Project] records. *)
Record Heap := mkHeap {
  arrays : gmap nat (list nat);
  records : gmap nat Project
}.

(** [new Project(..)]: a record at a fresh reference. *)
Definition new_Project (p : Project) (h : Heap) : nat * Heap :=
  let r := fresh (dom (records h)) in
  (r, mkHeap (arrays h) (<[r := p]> (records h))).

(** [arr.push(r)] *)
Definition push (arr r : nat) (h : Heap) : Heap :=
  mkHeap (alter (λ refs, refs ++ [r]) arr (arrays h)) (records h).

(** [arr.slice()]: a new array holding the same references. *)
Definition slice (arr : nat) (h : Heap) : nat * Heap :=
  let copy := fresh (dom (arrays h)) in
  (copy, mkHeap (<[copy := default [] (arrays h !! arr)]> (arrays h)) (records h)).

(** What a listener may do with the array [items] it receives.

    - [OnArray f]: any in-place change of the array itself
      ([items.push(r)], [items.pop()], [items.splice(..)], [items.sort(..)],
      [items[i] = r], [items.length = n], ...), given as its effect [f]
      on the sequence of references;
    - [OnRecord i f]: a change of the object [items[i]]
      ([items[i].status = ..], [items[i].title = ..], ...), given as its
      effect [f] on the record. *)
Inductive Mutation :=
| OnArray (f : list nat → list nat)
| OnRecord (i : nat) (f : Project → Project).

Definition is_OnArray (m : Mutation) : bool :=
  match m with OnArray _ => true | OnRecord _ _ => false end.

(** [items[i].x = v] throws when [items[i]] is [undefined]. *)
Definition mutate (items : nat) (m : Mutation) (h : Heap) : Heap * completion :=
  match m with
  | OnArray f => (mkHeap (alter f items (arrays h)) (records h), Normal)
  | OnRecord i f =>
      match default [] (arrays h !! items) !! i with
      | Some r => (mkHeap (arrays h) (alter f r (records h)), Normal)
      | None => (h, Throw)
      end
  end.

(** A listener, as the mutations it performs through its argument. *)
Definition Listener : Type := list Mutation.

Fixpoint call (listenerFN : Listener) (items : nat) (h : Heap) : Heap * completion :=
  match listenerFN with
  | [] => (h, Normal)
  | m :: rest =>
      match mutate items m h with
      | (h', Normal) => call rest items h'
      | (h', Throw) => (h', Throw)
      end
  end.

Record ProjectState := mkProjectState {
  listeners : list Listener;
  projects : nat
}.

(** [for (const listenerFN of this.listeners) listenerFN(this.projects.slice())] *)
Fixpoint notify (ls : list Listener) (arr : nat) (h : Heap) : Heap * completion :=
  match ls with
  | [] => (h, Normal)
  | listenerFN :: rest =>
      let '(items, h) := slice arr h in
      match call listenerFN items h with
      | (h', Normal) => notify rest arr h'
      | (h', Throw) => (h', Throw)
      end
  end.

Definition addProject (rnd : string) (title description : string) (numOfPeople : JS.number)
    (this : ProjectState) (h : Heap) : Heap * completion :=
  let '(newProject, h) := new_Project (mkProject rnd title description numOfPeople Active) h in
  let h := push (projects this) newProject h in
  notify (listeners this) (projects this) h.

(** The records an array holds, in order. *)
Definition contents (arr : nat) (h : Heap) : list Project :=
  omap (λ r, records h !! r) (default [] (arrays h !! arr)).

(** [new ProjectState] on an empty heap: the store's array is object 0. *)
Definition getInstance (ls : list Listener) : ProjectState * Heap :=
  (mkProjectState ls 0, mkHeap {[ 0 := [] ]} ∅).

End Refs.

(** ** Vocabulary for the properties *)

(** *** Validation, as the specification words it

    "Applies only the checks present in the configuration; string-length
    and numeric-bound checks are mutually exclusive based on the value's
    semantic type."  [configured] lists the checks a configuration carries
    and [passes] says when a value passes one of them; a check that does not
    concern the type of the value passes. *)
Inductive Rule :=
| Required
| MinLength (m : JS.number)
| MaxLength (m : JS.number)
| Min (m : JS.number)
| Max (m : JS.number).

Definition configured (o : Validatable) : list Rule :=
  (if truthy (required o) then [Required] else []) ++
  (match minLength o with Some m => [MinLength m] | None => [] end) ++
  (match maxLength o with Some m => [MaxLength m] | None => [] end) ++
  (match min o with Some m => [Min m] | None => [] end) ++
  (match max o with Some m => [Max m] | None => [] end).

Definition passes (v : Value) (c : Rule) : bool :=
  match c, v with
  | Required, _ => not_blank v
  | MinLength m, Str s => JS.lt m (JS.of_nat (String.length s))
  | MaxLength m, Str s => JS.lt (JS.of_nat (String.length s)) m
  | Min m, Num n => JS.lt m n
  | Max m, Num n => JS.lt n m
  | MinLength _, Num _ | MaxLength _, Num _ => true
  | Min _, Str _ | Max _, Str _ => true
  end.

(** *** Runs of the store *)

(** The two operations of the store, with their arguments. *)
Inductive Op (W : Type) :=
| Register (listenerFN : Listener W)
| Append (rnd title description : string) (numOfPeople : JS.number).

Arguments Register {W} listenerFN.
Arguments Append {W} rnd title description numOfPeople.

Definition exec {W} (o : Op W) (this : ProjectState W) (w : W) : ProjectState W * W * completion :=
  match o with
  | Register listenerFN => (addListener listenerFN this, w, Normal)
  | Append rnd t d n => addProject rnd t d n this w
  end.

(** Operations one after the other.  An exception that escapes a call does
    not stop the page: the next operation runs on the state it left. *)
Fixpoint execs {W} (os : list (Op W)) (this : ProjectState W) (w : W) : ProjectState W * W :=
  match os with
  | [] => (this, w)
  | o :: rest => let '(this', w', _) := exec o this w in execs rest this' w'
  end.

(** The record an [Append] creates, and the [Math.random] string it uses. *)
Definition created {W} (os : list (Op W)) : list Project :=
  omap (λ o, match o with
             | Append rnd t d n => Some (mkProject rnd t d n Active)
             | Register _ => None
             end) os.

Definition draws {W} (os : list (Op W)) : list string :=
  omap (λ o, match o with Append rnd _ _ _ => Some rnd | Register _ => None end) os.

Definition registered {W} (os : list (Op W)) : list (Listener W) :=
  omap (λ o, match o with Register l => Some l | Append _ _ _ _ => None end) os.

(** [calls_each ls items w w']: starting from [w], every listener of [ls] is
    called, in order, with [items], each call returns, and [w'] is left. *)
Inductive calls_each {W} : list (Listener W) → list Project → W → W → Prop :=
| calls_each_nil items w : calls_each [] items w w
| calls_each_cons l ls items w w1 w2 :
    l items w = (w1, Normal) →
    calls_each ls items w1 w2 →
    calls_each (l :: ls) items w w2.

(** The status a view of type [t] keeps. *)
Definition partition (t : ProjectListType) : ProjectStatus :=
  match t with active => Active | finished => Finished end.

(** A listener that records the array it is called with. *)
Definition probe : Listener (list (list Project)) :=
  λ items log, (log ++ [items], Normal).

Definition set_status (st : ProjectStatus) (p : Project) : Project :=
  mkProject (id p) (title p) (description p) (people p) st.

(** *** Reachable states of the page *)

Definition all_Active (ps : list Project) : Prop :=
  Forall (λ p, status p = Active) ps.

Definition views_Active (pg : Page) : Prop :=
  all_Active (activePrjLiist pg) ∧ all_Active (finishedPrjLiist pg).

(** Every record the program holds: those of the store and those the two
    views have kept. *)
Definition held (a : App) : list Project :=
  projects (projectState a) ++ activePrjLiist (page a) ++ finishedPrjLiist (page a).

(** What holds of every state the page reaches when its two views register
    the listeners [configure active] and [configure finished]. *)
Definition Inv (configure : ProjectListType → Listener Page) (a : App) : Prop :=
  listeners (projectState a) = [configure active; configure finished] ∧
  all_Active (projects (projectState a)) ∧
  views_Active (page a).

(** Both lists are in the document. *)
Definition lists_present (pg : Page) : Prop :=
  is_Some (document pg !! listId active) ∧ is_Some (document pg !! listId finished).

(** The view of type [t] has kept the records of its partition that the
    store holds, and its list shows their titles, one item each. *)
Definition shows_partition (a : App) (t : ProjectListType) : Prop :=
  assignedProjects t (page a)
  = List.filter (λ x, bool_decide (status x = partition t)) (projects (projectState a)) ∧
  document (page a) !! listId t = Some (map title (assignedProjects t (page a))).


(** ** Vocabulary for further properties *)

(** Every code unit of [s] is white space; so it is for the empty string. *)
Fixpoint all_white_space (s : string) : bool :=
  match s with
  | EmptyString => true
  | String c s' => JS.is_white_space c && all_white_space s'
  end.

(** The values of the three inputs of the form. *)
Definition form (pg : Page) : string * string * string :=
  (titleInputElement pg, descriptionInputElement pg, peopleInputElement pg).

(** A listener that only draws: on a page whose document holds both lists
    it returns, leaves both lists in the document, and touches neither the
    alerts nor the inputs. *)
Definition only_draws (l : Listener Page) : Prop :=
  ∀ items pg, lists_present pg →
    ∃ pg', l items pg = (pg', Normal) ∧ lists_present pg' ∧
           alerts pg' = alerts pg ∧ form pg' = form pg.

(** The page once loaded: the two views have registered their listeners
    and their lists are in the document. *)
Definition loaded (configure : ProjectListType → Listener Page) (a : App) : Prop :=
  listeners (projectState a) = [configure active; configure finished] ∧
  lists_present (page a).

(** The number of submit events in a sequence of events. *)
Definition submissions (es : list Event) : nat :=
  length (List.filter (λ e, match e with Submit _ => true | UserInput _ _ _ => false end) es).

(** What a list of part_001 shows once the store holds [ps]: the titles of
    the first record, then those of the first two, and so on. *)
Definition drawn_so_far (ps : list Project) : list string :=
  flat_map (λ k, map title (take k ps)) (seq 1 (length ps)).

(** ** The earliest revision, [src/TS_DragAndDrop/src/app.ts]

    [validate], [gatherUserInput] and [clearInputs] are those of the later
    revisions.  The submit handler does not reach any store: it logs the
    three values to the console.  The list views register no listener and
    never draw. *)

Module AppTs.

(** The page with its console: the arguments of each [console.log] call,
    oldest first. *)
Record State := mkState {
  page : Page;
  console : list (string * JS.number * string)
}.

(** [submitHandler(event)]: [console.log(title, people, desc)], then
    [clearInputs()]. *)
Definition submitHandler (s : State) : State :=
  let '(pg, userInput) := gatherUserInput (page s) in
  match userInput with
  | Some (title, desc, people) =>
      mkState (clearInputs pg) (console s ++ [(title, people, desc)])
  | None => mkState pg (console s)
  end.

(** [new ProjectList(t)]: the section is attached and [renderContent] gives
    the [<ul>] its id. *)
Definition new_ProjectList (t : ProjectListType) (pg : Page) : Page :=
  set_document (<[listId t := template_ul]> (document pg)) pg.

(** [new ProjectInput(); new ProjectList('active'); new ProjectList('finished')] *)
Definition boot : State :=
  mkState (new_ProjectList finished (new_ProjectList active (mkPage ∅ [] [] "" "" "" []))) [].

Definition step (e : Event) (s : State) : State :=
  match e with
  | UserInput t d p =>
      mkState
        (mkPage (document (page s)) (activePrjLiist (page s)) (finishedPrjLiist (page s))
           t d p (alerts (page s)))
        (console s)
  | Submit _ => submitHandler s
  end.

Definition run (es : list Event) (s : State) : State := foldl (λ s e, step e s) s es.

End AppTs.

(** * Properties *)

(** ** Sanity checks of the JavaScript primitives *)

Example trim_ex : JS.trim "  ab c  " = "ab c". Proof. reflexivity. Qed.
Example to_number_3 : JS.to_number "3" = JS.int 3. Proof. reflexivity. Qed.
Example to_number_empty : JS.to_number "" = JS.int 0. Proof. reflexivity. Qed.
Example to_number_neg : JS.to_number " -12 " = JS.int (-12). Proof. reflexivity. Qed.
Example to_number_abc : JS.to_number "abc" = JS.NaN. Proof. reflexivity. Qed.
Example to_number_hex : JS.to_number "0x1F" = JS.int 31. Proof. reflexivity. Qed.
Example to_number_dot : JS.to_number "." = JS.NaN. Proof. reflexivity. Qed.
Example to_number_inf : JS.to_number "-Infinity" = JS.NegInfinity. Proof. reflexivity. Qed.
Example to_number_3px : JS.to_number "3px" = JS.NaN. Proof. reflexivity. Qed.
Example to_number_e : JS.to_number "1e" = JS.NaN. Proof. reflexivity. Qed.
Example to_number_frac : JS.lt (JS.to_number "1.5") (JS.int 2) = true /\ JS.lt (JS.int 1) (JS.to_number "1.5") = true /\ JS.lt (JS.to_number "15e-1") (JS.to_number ".15E1") = false /\ JS.lt (JS.to_number "5.") (JS.to_number "05.0") = false.
Proof. vm_compute. auto. Qed.
Example to_number_more :
  JS.to_number "+5" = JS.int 5 ∧ JS.to_number "5e2" = JS.int 500 ∧
  JS.to_number "   " = JS.int 0 ∧ JS.to_number "1 2" = JS.NaN ∧
  JS.to_number "-" = JS.NaN ∧ JS.to_number "Infinityx" = JS.NaN ∧
  JS.to_number "1e-" = JS.NaN ∧ JS.to_number "0b101" = JS.int 5 ∧
  JS.to_number "0x1g" = JS.NaN ∧ JS.to_number "-0x10" = JS.NaN ∧
  JS.to_number "0" = JS.int 0 ∧ JS.to_number "007" = JS.int 7.
Proof. repeat split; reflexivity. Qed.
Example posint : JS.is_positive_integer (JS.to_number "3") = true /\ JS.is_positive_integer (JS.to_number "1.5") = false /\ JS.is_positive_integer (JS.to_number "0") = false.
Proof. vm_compute. auto. Qed.

(** ** Validation *)

Lemma lt_irrefl (x : JS.number) : JS.lt x x = false.
Proof.
  destruct x as [| | |q]; simpl; try reflexivity.
  assert (H : (q ?= q)%Qc = Eq) by (apply Qceq_alt; reflexivity).
  now rewrite H.
Qed.

Lemma gt_lt (a b : JS.number) : JS.gt a b = JS.lt b a.
Proof. reflexivity. Qed.

(** [validate] is the conjunction of the checks its configuration carries. *)
Lemma validate_configured (o : Validatable) :
  validate o = forallb (passes (value o)) (configured o).
Proof.
  destruct o as [v r minL maxL mn mx]; unfold validate, configured; simpl.
  destruct (truthy r), minL, maxL, mn, mx, v; cbn [app forallb passes];
    rewrite ?gt_lt, ?andb_true_r, ?andb_true_l, ?andb_assoc; reflexivity.
Qed.

(** C8: with the configuration [{required: true, minLength: 5,
    maxLength: 15}], [validate] rejects ["Test"], accepts ["Hello World"]
    and rejects the empty string; in general its result is the conjunction
    of exactly the checks present in the configuration, where a length
    check concerns strings only and a numeric bound numbers only; being a
    function of its argument, it has no effect on any state. *)
Theorem validate_applies_configured_checks :
  validate (titleValidatable "Test") = false ∧
  validate (titleValidatable "Hello World") = true ∧
  validate (titleValidatable "") = false ∧
  (∀ o : Validatable, validate o = forallb (passes (value o)) (configured o)) ∧
  (∀ (s : string) r minL maxL mn mx mn' mx',
     validate (mkValidatable (Str s) r minL maxL mn mx)
     = validate (mkValidatable (Str s) r minL maxL mn' mx')) ∧
  (∀ (n : JS.number) r minL maxL minL' maxL' mn mx,
     validate (mkValidatable (Num n) r minL maxL mn mx)
     = validate (mkValidatable (Num n) r minL' maxL' mn mx)) ∧
  (∀ v : Value, validate (mkValidatable v None None None None None) = true).
Proof.
  repeat split; try reflexivity.
  - apply validate_configured.
  - intros. unfold validate; simpl. destruct mn, mx, mn', mx'; reflexivity.
  - intros. unfold validate; simpl. destruct minL, maxL, minL', maxL'; reflexivity.
Qed.

(** C10: the length checks are strict.  A string whose length equals the
    configured [minLength], or equals the configured [maxLength], is
    invalid. *)
Theorem validate_length_bounds_strict (o : Validatable) (s : string) :
  value o = Str s →
  minLength o = Some (JS.of_nat (String.length s)) ∨
  maxLength o = Some (JS.of_nat (String.length s)) →
  validate o = false.
Proof.
  intros Hv Hlen. rewrite validate_configured, Hv.
  apply not_true_is_false. intros Hall.
  rewrite forallb_forall in Hall.
  destruct Hlen as [Hmin | Hmax].
  - specialize (Hall (MinLength (JS.of_nat (String.length s)))).
    cbn [passes] in Hall. rewrite lt_irrefl in Hall.
    assert (false = true) as Hf; [|discriminate Hf].
    apply Hall. unfold configured. rewrite Hmin.
    rewrite !in_app_iff. right; left. now left.
  - specialize (Hall (MaxLength (JS.of_nat (String.length s)))).
    cbn [passes] in Hall. rewrite lt_irrefl in Hall.
    assert (false = true) as Hf; [|discriminate Hf].
    apply Hall. unfold configured. rewrite Hmax.
    rewrite !in_app_iff. right; right; left. now left.
Qed.

(** A title of exactly 5 characters against the
    title configuration. *)
Lemma validate_length_bounds_strict_witness :
  value (titleValidatable "Hello") = Str "Hello" ∧
  (minLength (titleValidatable "Hello") = Some (JS.of_nat (String.length "Hello")) ∨
   maxLength (titleValidatable "Hello") = Some (JS.of_nat (String.length "Hello"))) ∧
  validate (titleValidatable "Hello") = false.
Proof.
  split; [reflexivity|]. split; [left; reflexivity|].
  apply (validate_length_bounds_strict (titleValidatable "Hello") "Hello");
    [reflexivity | left; reflexivity].
Defined.

(** With the title configuration, titles of exactly 5 or exactly 15
    characters are rejected. *)
Lemma title_of_length_5_or_15_rejected (enteredTitle : string) :
  String.length enteredTitle = 5 ∨ String.length enteredTitle = 15 →
  validate (titleValidatable enteredTitle) = false.
Proof.
  intros [H | H];
    apply (validate_length_bounds_strict _ enteredTitle); try reflexivity;
    simpl; rewrite H; [left | right]; reflexivity.
Qed.

Example title_15_rejected : validate (titleValidatable "Fifteen letters") = false.
Proof. reflexivity. Qed.

Example title_6_and_14_accepted :
  validate (titleValidatable "Sixsix") = true ∧
  validate (titleValidatable "Fourteen chars") = true.
Proof. split; reflexivity. Qed.

(** ** The store *)

Section StoreFacts.

Context {W : Type}.
Implicit Types (this : ProjectState W) (w : W) (os : list (Op W)).

Lemma notify_calls_each (ls : list (Listener W)) items w w' :
  notify ls items w = (w', Normal) ↔ calls_each ls items w w'.
Proof.
  revert w. induction ls as [|l ls IH]; intros w; simpl.
  - split.
    + intros [= <-]. constructor.
    + inversion 1; reflexivity.
  - split.
    + destruct (l items w) as [w1 []] eqn:El; [|discriminate].
      intros H. econstructor; [exact El|]. now apply IH.
    + inversion 1 as [|? ? ? ? w1 ? El Hrest]; subst.
      rewrite El. now apply IH.
Qed.

(** [addProject] appends one record, built from its arguments with status
    [Active], keeps the listeners, and then notifies with the new array. *)
Lemma addProject_unfold rnd t d n this w :
  addProject rnd t d n this w =
    let items := projects this ++ [mkProject rnd t d n Active] in
    (mkProjectState (listeners this) items,
     fst (notify (listeners this) items w),
     snd (notify (listeners this) items w)).
Proof.
  unfold addProject; simpl.
  now destruct (notify _ _ w).
Qed.

Lemma exec_projects (o : Op W) this w :
  projects (exec o this w).1.1 = projects this ++ created [o] ∧
  listeners (exec o this w).1.1 = listeners this ++ registered [o].
Proof.
  destruct o as [l | rnd t d n]; simpl.
  - now rewrite !app_nil_r.
  - rewrite addProject_unfold; simpl. now rewrite app_nil_r.
Qed.

Lemma created_app os1 os2 : created (os1 ++ os2) = created os1 ++ created os2.
Proof. unfold created. apply omap_app. Qed.

Lemma registered_app os1 os2 :
  registered (os1 ++ os2) = registered os1 ++ registered os2.
Proof. unfold registered. apply omap_app. Qed.

Lemma draws_created os : map id (created os) = draws os.
Proof.
  induction os as [|[l | rnd t d n] os IH]; simpl; [reflexivity| exact IH|].
  cbn. now rewrite <- IH.
Qed.

Lemma created_Register (ls : list (Listener W)) : created (map Register ls) = [].
Proof. induction ls; simpl; auto. Qed.

Lemma registered_Register (ls : list (Listener W)) : registered (map Register ls) = ls.
Proof. induction ls; simpl; [reflexivity|]. cbn. now f_equal. Qed.

(** After any run, the store holds what it held plus the records created
    by the run, in the order of the calls; likewise for the listeners. *)
Lemma execs_state os this w :
  projects (execs os this w).1 = projects this ++ created os ∧
  listeners (execs os this w).1 = listeners this ++ registered os.
Proof.
  revert this w. induction os as [|o os IH]; intros this w.
  - simpl. now rewrite !app_nil_r.
  - cbn [execs].
    pose proof (exec_projects o this w) as [Hp Hl].
    destruct (exec o this w) as [[this1 w1] c]; simpl in Hp, Hl.
    destruct (IH this1 w1) as [IHp IHl].
    rewrite IHp, IHl, Hp, Hl.
    change (o :: os) with ([o] ++ os).
    now rewrite created_app, registered_app, !app_assoc.
Qed.

(** C1: listeners [ls] are registered on the fresh store; then any run
    [pre] of earlier calls takes place; then [addProject] is called once
    more and returns.  That call leaves in the store exactly the records
    created so far, in call order (one more than before), and it has
    called every listener of [ls], in registration order and before any
    listener registered later, with exactly that array. *)
Theorem addProject_notifies_with_all_records
    (ls : list (Listener W)) (pre : list (Op W))
    (rnd t d : string) (n : JS.number) (w0 : W) this w this' w' :
  execs (map Register ls ++ pre) getInstance w0 = (this, w) →
  addProject rnd t d n this w = (this', w', Normal) →
  projects this' = created (pre ++ [Append rnd t d n]) ∧
  length (projects this') = S (length (created pre)) ∧
  listeners this' = ls ++ registered pre ∧
  calls_each (ls ++ registered pre) (projects this') w w'.
Proof.
  intros Hpre Hcall.
  pose proof (execs_state (map Register ls ++ pre) getInstance w0) as [Hp Hl].
  rewrite Hpre in Hp, Hl; simpl in Hp, Hl.
  rewrite created_app, created_Register in Hp.
  rewrite registered_app, registered_Register in Hl. simpl in Hp.
  rewrite addProject_unfold, Hp, Hl in Hcall. cbn zeta in Hcall.
  injection Hcall as <- <- Hc.
  cbn [projects listeners].
  rewrite created_app. cbn.
  repeat split.
  - rewrite length_app. simpl. lia.
  - apply notify_calls_each.
    rewrite <- Hc. apply surjective_pairing.
Qed.

(** C9 (amended): the ids held by the store after a run from the fresh
    store are, in order, the strings [Math.random().toString()] yielded
    in the [addProject] calls of the run. *)
Theorem ids_are_the_random_draws os w0 :
  map id (projects (execs os getInstance w0).1) = draws os.
Proof.
  destruct (execs_state os getInstance w0) as [-> _]. simpl.
  apply draws_created.
Qed.

(** Hence the ids are pairwise distinct exactly when the draws are. *)
Lemma ids_distinct_iff_draws_distinct os w0 :
  NoDup (map id (projects (execs os getInstance w0).1)) ↔ NoDup (draws os).
Proof. now rewrite ids_are_the_random_draws. Qed.

End StoreFacts.

(** One probe registered, two calls: the second call hands the probe the
    two records, in call order. *)
Lemma addProject_notifies_with_all_records_witness :
  let first := mkProject "0.25" "First project" "one" (JS.int 1) Active in
  let second := mkProject "0.75" "Second project" "two" (JS.int 2) Active in
  projects (mkProjectState [probe] [first; second]) = [first; second] ∧
  calls_each [probe] [first; second] [[first]] [[first]; [first; second]].
Proof.
  intros first second.
  pose proof (addProject_notifies_with_all_records
                [probe] [Append "0.25" "First project" "one" (JS.int 1)]
                "0.75" "Second project" "two" (JS.int 2) []
                (mkProjectState [probe] [first]) [[first]]
                (mkProjectState [probe] [first; second]) [[first]; [first; second]]
                eq_refl eq_refl) as (Hp & _ & _ & Hc).
  split; [exact Hp | exact Hc].
Defined.

(** X23: a probe registered on the fresh store, then [N] calls of
    [addProject]: the probe has received [N] arrays, the [k]-th one holding
    the first [k] records created. *)
Lemma probe_receives_prefixes (os : list (Op (list (list Project))))
    (ps : list Project) (log : list (list Project)) :
  Forall (λ o, match o with Append _ _ _ _ => True | Register _ => False end) os →
  (execs os (mkProjectState [probe] ps) log).2
  = log ++ map (λ k, ps ++ take k (created os)) (seq 1 (length os)).
Proof.
  intros Hos. revert ps log.
  induction Hos as [|o os Ho _ IH]; intros ps log.
  - simpl. now rewrite app_nil_r.
  - destruct o as [l | rnd t d n]; [destruct Ho|].
    cbn [execs exec]. rewrite addProject_unfold. cbn.
    rewrite IH. rewrite <- app_assoc. f_equal. cbn. f_equal.
    rewrite <- (seq_shift (length os) 1), map_map. apply map_ext. intros k.
    now rewrite <- app_assoc.
Qed.

(** C9, as stated, fails: two calls in which [Math.random()] yields the
    same number create two records with the same id. *)
Lemma ids_can_collide :
  let os : list (Op unit) :=
    [Append "0.5" "First project" "one" (JS.int 1);
     Append "0.5" "Second project" "two" (JS.int 2)] in
  ¬ NoDup (map id (projects (execs os getInstance tt).1)).
Proof.
  simpl. intros H. apply NoDup_cons in H as [Hin _].
  apply Hin. constructor.
Qed.

(** ** The input form *)

Lemma gatherUserInput_invalid (pg : Page) :
  validate (titleValidatable (titleInputElement pg)) = false →
  gatherUserInput pg = (alert "Invalid user input!" pg, None).
Proof. intros H. unfold gatherUserInput. now rewrite H. Qed.

Lemma gatherUserInput_valid (pg : Page) :
  validate (titleValidatable (titleInputElement pg)) = true →
  gatherUserInput pg =
    (pg, Some (titleInputElement pg, descriptionInputElement pg,
               JS.to_number (peopleInputElement pg))).
Proof. intros H. unfold gatherUserInput. now rewrite H. Qed.

(** C6: when the title fails the title configuration, the submit handler
    shows the alert and does nothing else: the store (records and
    listeners) is the same, so no listener has been called, the document
    and the views are the same, and the three inputs keep their values. *)
Theorem submit_invalid_title_only_alerts (rnd : string) (a : App) :
  validate (titleValidatable (titleInputElement (page a))) = false →
  submitHandler rnd a = (mkApp (projectState a) (alert "Invalid user input!" (page a)), Normal) ∧
  let a' := step (Submit rnd) a in
  projectState a' = projectState a ∧
  length (projects (projectState a')) = length (projects (projectState a)) ∧
  alerts (page a') = alerts (page a) ++ ["Invalid user input!"] ∧
  document (page a') = document (page a) ∧
  activePrjLiist (page a') = activePrjLiist (page a) ∧
  finishedPrjLiist (page a') = finishedPrjLiist (page a) ∧
  titleInputElement (page a') = titleInputElement (page a) ∧
  descriptionInputElement (page a') = descriptionInputElement (page a) ∧
  peopleInputElement (page a') = peopleInputElement (page a).
Proof.
  intros H.
  assert (E : submitHandler rnd a
              = (mkApp (projectState a) (alert "Invalid user input!" (page a)), Normal)).
  { unfold submitHandler. now rewrite (gatherUserInput_invalid _ H). }
  split; [exact E|].
  unfold step. rewrite E. simpl. repeat split.
Qed.

(** The end-to-end case of the specification: the title ["Hi!"] typed into
    the freshly loaded page of part_000.  The store stays empty, one alert
    is shown, and both lists stay empty. *)
Lemma submit_invalid_title_only_alerts_witness :
  let a := step (UserInput "Hi!" "desc" "3") Part000.boot in
  let a' := step (Submit "0.42") a in
  validate (titleValidatable (titleInputElement (page a))) = false ∧
  projects (projectState a') = [] ∧
  alerts (page a') = ["Invalid user input!"] ∧
  document (page a') !! "active-project-list" = Some [] ∧
  document (page a') !! "finished-project-list" = Some [] ∧
  titleInputElement (page a') = "Hi!".
Proof.
  intros a a'.
  assert (Hv : validate (titleValidatable (titleInputElement (page a))) = false)
    by reflexivity.
  destruct (submit_invalid_title_only_alerts "0.42" a Hv)
    as (_ & Hs & _ & Ha & Hd & _ & _ & Ht & _).
  fold a' in Hs, Ha, Hd, Ht.
  split; [exact Hv|].
  split; [rewrite Hs; reflexivity|].
  split; [rewrite Ha; reflexivity|].
  split; [rewrite Hd; vm_compute; reflexivity|].
  split; [rewrite Hd; vm_compute; reflexivity|].
  rewrite Ht. reflexivity.
Defined.

(** The same handler in part_001 behaves the same way. *)
Example submit_invalid_title_part_001 :
  let a' := run [UserInput "Hi!" "desc" "3"; Submit "0.42"] Part001.boot in
  projects (projectState a') = [] ∧ alerts (page a') = ["Invalid user input!"].
Proof. split; reflexivity. Qed.

(** A valid title sends the three values to the store, the people count
    converted by unary [+] and not checked. *)
Lemma submit_valid_title (rnd : string) (a : App) :
  validate (titleValidatable (titleInputElement (page a))) = true →
  projects (projectState (step (Submit rnd) a)) =
    projects (projectState a) ++
      [mkProject rnd (titleInputElement (page a)) (descriptionInputElement (page a))
         (JS.to_number (peopleInputElement (page a))) Active].
Proof.
  intros H. unfold step, submitHandler.
  rewrite (gatherUserInput_valid _ H), addProject_unfold. cbn zeta.
  now destruct (notify _ _ _).2.
Qed.

(** C4 fails on the code: only the title is validated.  With a valid title
    and the people input left empty, unary [+] gives [0], and the record
    reaches the store with [people = 0]. *)
Theorem people_is_not_validated :
  let a := run [UserInput "Build API" "desc" ""; Submit "0.42"] Part000.boot in
  projects (projectState a) = [mkProject "0.42" "Build API" "desc" (JS.int 0) Active] ∧
  JS.is_positive_integer (JS.int 0) = false.
Proof. split; reflexivity. Qed.

(** Other people inputs that reach the store: a negative count, a
    fraction, and text that is not a number. *)
Example people_negative_fraction_NaN :
  map people (projects (projectState
    (run [UserInput "Build API" "desc" "-2"; Submit "0.1";
          UserInput "Build API" "desc" "abc"; Submit "0.2"] Part000.boot)))
  = [JS.int (-2); JS.NaN] ∧
  JS.is_positive_integer (JS.int (-2)) = false ∧
  JS.is_positive_integer JS.NaN = false ∧
  JS.is_positive_integer (JS.to_number "2.5") = false.
Proof. repeat split; reflexivity. Qed.

(** ** Drawing a list *)

Lemma listId_active_finished : listId active ≠ listId finished.
Proof. discriminate. Qed.

(** Appending to a list that holds [items] leaves it holding [items]
    followed by one title per assigned project. *)
Lemma appendItems_insert (listEl : string) (assigned : list Project)
    (items : list string) (doc : gmap string (list string)) :
  appendItems listEl assigned (<[listEl := items]> doc)
  = <[listEl := items ++ map title assigned]> doc.
Proof.
  unfold appendItems. revert items.
  induction assigned as [|p ps IH]; intros items; simpl.
  - now rewrite app_nil_r.
  - unfold appendChild at 2. rewrite alter_insert_eq, IH.
    now rewrite <- app_assoc.
Qed.

Lemma appendItems_present (listEl : string) (assigned : list Project)
    (items : list string) (doc : gmap string (list string)) :
  doc !! listEl = Some items →
  appendItems listEl assigned doc = <[listEl := items ++ map title assigned]> doc.
Proof.
  intros H. rewrite <- (insert_id doc listEl items H) at 1.
  apply appendItems_insert.
Qed.

Lemma set_assignedProjects_same t ps pg :
  assignedProjects t (set_assignedProjects t ps pg) = ps.
Proof. now destruct t. Qed.

Lemma set_assignedProjects_document t ps pg :
  document (set_assignedProjects t ps pg) = document pg.
Proof. now destruct t. Qed.

(** ** The list views of part_000 *)

(** The filter of [configure] keeps the records whose status is the
    partition of the view. *)
Lemma Part000_filter (t : ProjectListType) (items : list Project) :
  List.filter
    (λ x, match t with
          | active => bool_decide (status x = Active)
          | finished => bool_decide (status x = Finished)
          end) items
  = List.filter (λ x, bool_decide (status x = partition t)) items.
Proof. now destruct t. Qed.

(** One notification of a part_000 view whose list is in the document: the
    view keeps exactly the records of its partition, in the order of the
    array, and its list then holds exactly their titles, whatever it held
    before.  Nothing else on the page changes. *)
Lemma Part000_configure_spec (t : ProjectListType) (items : list Project) (pg : Page) :
  is_Some (document pg !! listId t) →
  let kept := List.filter (λ x, bool_decide (status x = partition t)) items in
  Part000.configure t items pg
  = (set_document (<[listId t := map title kept]> (document pg))
       (set_assignedProjects t kept pg), Normal).
Proof.
  intros [old Hold] kept.
  unfold Part000.configure, Part000.renderProjects.
  rewrite Part000_filter. fold kept.
  rewrite set_assignedProjects_document, Hold, set_assignedProjects_same.
  now rewrite appendItems_insert.
Qed.

Lemma Part000_configure_missing (t : ProjectListType) (items : list Project) (pg : Page) :
  document pg !! listId t = None →
  Part000.configure t items pg
  = (set_assignedProjects t
       (List.filter (λ x, bool_decide (status x = partition t)) items) pg, Throw).
Proof.
  intros Hnone. unfold Part000.configure, Part000.renderProjects.
  now rewrite Part000_filter, set_assignedProjects_document, Hnone.
Qed.

(** What one notification of both views of part_000 leaves. *)
Lemma Part000_notify (items : list Project) (pg : Page) :
  lists_present pg →
  notify [Part000.configure active; Part000.configure finished] items pg
  = (mkPage
       (<[listId finished :=
            map title (List.filter (λ x, bool_decide (status x = Finished)) items)]>
          (<[listId active :=
               map title (List.filter (λ x, bool_decide (status x = Active)) items)]>
             (document pg)))
       (List.filter (λ x, bool_decide (status x = Active)) items)
       (List.filter (λ x, bool_decide (status x = Finished)) items)
       (titleInputElement pg) (descriptionInputElement pg) (peopleInputElement pg)
       (alerts pg), Normal).
Proof.
  intros [Ha Hf]. cbn [notify].
  rewrite (Part000_configure_spec active items pg Ha). cbn zeta.
  rewrite Part000_configure_spec.
  - reflexivity.
  - cbn [set_document document set_assignedProjects].
    rewrite lookup_insert_ne by exact listId_active_finished. exact Hf.
Qed.

Lemma run_ind (P : App → Prop) (a : App) :
  P a → (∀ e a, P a → P (step e a)) → ∀ es, P (run es a).
Proof.
  intros H0 Hstep es. revert a H0.
  induction es as [|e es IH]; intros a H0; simpl; auto.
Qed.

(** In every state part_000 reaches, each view has kept exactly the records
    of its partition and shows exactly their titles. *)
Lemma Part000_reachable (es : list Event) :
  let a := run es Part000.boot in
  listeners (projectState a) = [Part000.configure active; Part000.configure finished] ∧
  ∀ t, shows_partition a t.
Proof.
  apply (run_ind (λ a,
    listeners (projectState a) = [Part000.configure active; Part000.configure finished] ∧
    ∀ t, shows_partition a t)).
  - split; [reflexivity|]. intros []; split; reflexivity.
  - intros e a [Hl Hs]. destruct e as [ti de pe | rnd].
    + split; [exact Hl|]. intros t. destruct (Hs t) as [H1 H2].
      split; destruct t; assumption.
    + assert (Hpres : lists_present (page a)).
      { split; [destruct (Hs active) as [_ ->] | destruct (Hs finished) as [_ ->]]; eauto. }
      unfold step, submitHandler, gatherUserInput.
      destruct (validate _); cbn [negb].
      * rewrite addProject_unfold, Hl. cbn zeta.
        rewrite (Part000_notify _ _ Hpres). cbn.
        split; [reflexivity|].
        intros []; split; cbn; try reflexivity.
        -- rewrite lookup_insert_ne by (symmetry; exact listId_active_finished).
           now rewrite lookup_insert_eq.
        -- now rewrite lookup_insert_eq.
      * cbn. split; [exact Hl|]. intros t. destruct (Hs t) as [H1 H2].
        split; destruct t; assumption.
Qed.

(** The end-to-end case of the specification on part_000: one valid
    submission. *)
Example Part000_build_api :
  let a := run [UserInput "Build API" "desc" "3"; Submit "0.42"] Part000.boot in
  projects (projectState a) = [mkProject "0.42" "Build API" "desc" (JS.int 3) Active] ∧
  document (page a) !! "active-project-list" = Some ["Build API"] ∧
  document (page a) !! "finished-project-list" = Some [] ∧
  titleInputElement (page a) = "".
Proof. repeat split; vm_compute; reflexivity. Qed.

(** Two valid submissions on part_000: two items, no residue. *)
Example Part000_two_projects :
  let a := run [UserInput "First one" "a" "1"; Submit "0.1";
                UserInput "Second one" "b" "2"; Submit "0.2"] Part000.boot in
  document (page a) !! "active-project-list" = Some ["First one"; "Second one"] ∧
  document (page a) !! "finished-project-list" = Some [].
Proof. split; vm_compute; reflexivity. Qed.

(** ** The list views of part_001 *)

(** C2 fails on part_001: its listener keeps the whole array, so after one
    valid submission the Finished view holds the new record, whose status
    is [Active], and the Finished list shows one item. *)
Theorem Part001_finished_view_keeps_active_record :
  let a := run [UserInput "Build API" "desc" "3"; Submit "0.42"] Part001.boot in
  finishedPrjLiist (page a) = [mkProject "0.42" "Build API" "desc" (JS.int 3) Active] ∧
  document (page a) !! "finished-project-list" = Some ["Build API"] ∧
  document (page a) !! "active-project-list" = Some ["Build API"].
Proof. repeat split; vm_compute; reflexivity. Qed.

(** C5 fails on part_001: its [renderProjects] does not clear the list, so
    after two valid submissions the Active list shows three items for two
    records, the first title twice. *)
Theorem Part001_list_keeps_earlier_items :
  let a := run [UserInput "First one" "a" "1"; Submit "0.1";
                UserInput "Second one" "b" "2"; Submit "0.2"] Part001.boot in
  map title (activePrjLiist (page a)) = ["First one"; "Second one"] ∧
  document (page a) !! "active-project-list"
  = Some ["First one"; "First one"; "Second one"].
Proof. split; vm_compute; reflexivity. Qed.

(** In general a part_001 notification appends to what the list holds. *)
Lemma Part001_listener_spec (t : ProjectListType) (items : list Project)
    (old : list string) (pg : Page) :
  document pg !! listId t = Some old →
  Part001.listener t items pg
  = (set_document (<[listId t := old ++ map title items]> (document pg))
       (set_assignedProjects t items pg), Normal).
Proof.
  intros Hold. unfold Part001.listener, Part001.renderProjects.
  rewrite set_assignedProjects_same, set_assignedProjects_document, Hold.
  destruct items as [|p ps].
  - simpl. rewrite app_nil_r, (insert_id _ _ _ Hold).
    now destruct t, pg.
  - now rewrite (appendItems_present _ _ old _ Hold).
Qed.

(** ** Status of the records the page holds *)

Lemma all_Active_filter (f : Project → bool) (items : list Project) :
  all_Active items → all_Active (List.filter f items).
Proof.
  unfold all_Active. rewrite !Forall_forall. intros H p Hin.
  apply list_elem_of_In, filter_In in Hin as [Hin _].
  apply H. now apply list_elem_of_In.
Qed.

Lemma views_Active_set_assigned t ps pg :
  all_Active ps → views_Active pg → views_Active (set_assignedProjects t ps pg).
Proof. intros Hps [Ha Hf]. destruct t; split; assumption. Qed.

Lemma views_Active_set_document doc pg :
  views_Active pg → views_Active (set_document doc pg).
Proof. intros [Ha Hf]. split; assumption. Qed.

Section Reachable.

(** The listener a view of each type registers, and what the argument
    needs of it: called with [Active] records only, it leaves the views
    holding [Active] records only. *)
Variable configure : ProjectListType → Listener Page.
Hypothesis configure_keeps :
  ∀ t items pg,
    all_Active items → views_Active pg → views_Active (configure t items pg).1.

Lemma notify_keeps (ls : list (Listener Page)) items pg :
  Forall (λ l, ∃ t, l = configure t) ls →
  all_Active items → views_Active pg → views_Active (notify ls items pg).1.
Proof.
  intros Hls Hitems. revert pg.
  induction Hls as [|l ls [t ->] _ IH]; intros pg Hpg; simpl; [exact Hpg|].
  pose proof (configure_keeps t items pg Hitems Hpg) as Hk.
  destruct (configure t items pg) as [pg1 []]; simpl in Hk.
  - now apply IH.
  - exact Hk.
Qed.

Lemma boot_Inv : Inv configure (boot configure).
Proof. repeat split; constructor. Qed.

Lemma step_Inv (e : Event) (a : App) : Inv configure a → Inv configure (step e a).
Proof.
  intros (Hl & Hp & Hv). destruct e as [ti de pe | rnd].
  - repeat split; try assumption; apply Hv.
  - unfold step, submitHandler, gatherUserInput.
    destruct (validate _); cbn [negb].
    + rewrite addProject_unfold. cbn zeta.
      set (items := projects (projectState a) ++ _).
      assert (Hitems : all_Active items).
      { apply Forall_app. split; [exact Hp|]. now repeat constructor. }
      assert (Hn : views_Active (notify (listeners (projectState a)) items (page a)).1).
      { apply notify_keeps; try assumption. rewrite Hl.
        repeat constructor; eauto. }
      destruct (notify _ items (page a)) as [pg1 []]; simpl in Hn |- *;
        repeat split; try assumption; apply Hn.
    + repeat split; try assumption; apply Hv.
Qed.

Lemma run_Inv (es : list Event) : Inv configure (run es (boot configure)).
Proof. apply run_ind; [apply boot_Inv | apply step_Inv]. Qed.

Lemma held_Active (a : App) (p : Project) :
  Inv configure a → p ∈ held a → status p = Active.
Proof.
  intros (_ & Hp & Ha & Hf) Hin. unfold held in Hin.
  rewrite !elem_of_app in Hin. unfold all_Active in *.
  rewrite Forall_forall in Hp, Ha, Hf.
  destruct Hin as [H | [H | H]]; auto.
Qed.

End Reachable.

Lemma Part000_configure_keeps t items pg :
  all_Active items → views_Active pg → views_Active (Part000.configure t items pg).1.
Proof.
  intros Hi Hv. unfold Part000.configure, Part000.renderProjects.
  assert (Hs : views_Active (set_assignedProjects t
            (List.filter (λ x, match t with
                               | active => bool_decide (status x = Active)
                               | finished => bool_decide (status x = Finished)
                               end) items) pg)).
  { apply views_Active_set_assigned; [now apply all_Active_filter | exact Hv]. }
  destruct (document _ !! listId t); simpl; [|exact Hs].
  now apply views_Active_set_document.
Qed.

Lemma Part001_listener_keeps t items pg :
  all_Active items → views_Active pg → views_Active (Part001.listener t items pg).1.
Proof.
  intros Hi Hv. unfold Part001.listener, Part001.renderProjects.
  assert (Hs : views_Active (set_assignedProjects t items pg))
    by now apply views_Active_set_assigned.
  destruct (assignedProjects t (set_assignedProjects t items pg)),
    (document (set_assignedProjects t items pg) !! listId t); simpl; exact Hs.
Qed.

(** C7: in every state the page reaches, in part_000 as in part_001, every
    record held by the store or kept by a view has status [Active]; and
    [addProject], on any store, appends a record whose status is
    [Active]. *)
Theorem status_is_always_Active (es : list Event) (a : App) (p : Project) :
  a = run es Part000.boot ∨ a = run es Part001.boot →
  p ∈ held a →
  status p = Active ∧
  ∀ (W : Type) rnd t d n (this : ProjectState W) (w : W),
    projects (addProject rnd t d n this w).1.1
    = projects this ++ [mkProject rnd t d n Active].
Proof.
  intros Hreach Hin. split.
  - destruct Hreach as [-> | ->].
    + apply (held_Active Part000.configure (run es Part000.boot)); [|exact Hin].
      apply (run_Inv _ Part000_configure_keeps).
    + apply (held_Active Part001.listener (run es Part001.boot)); [|exact Hin].
      apply (run_Inv _ Part001_listener_keeps).
  - intros. now rewrite addProject_unfold.
Qed.

Lemma status_is_always_Active_witness :
  let es := [UserInput "Build API" "desc" "3"; Submit "0.42"] in
  let p := mkProject "0.42" "Build API" "desc" (JS.int 3) Active in
  p ∈ held (run es Part000.boot) ∧ status p = Active.
Proof.
  intros es p.
  assert (Hin : p ∈ held (run es Part000.boot)) by (vm_compute; constructor).
  split; [exact Hin|].
  exact (proj1 (status_is_always_Active es (run es Part000.boot) p (or_introl eq_refl) Hin)).
Defined.

(** ** What a listener can reach through the array it receives *)

Section Sharing.

Import Refs.
Implicit Types (h : Heap) (l : Refs.Listener) (arr items : nat).

(** Nothing a listener does through [items] changes another array. *)
Lemma mutate_other_array items m h arr :
  arr ≠ items → arrays (mutate items m h).1 !! arr = arrays h !! arr.
Proof.
  intros Hne. destruct m as [f | i f]; simpl.
  - now apply lookup_alter_ne.
  - now destruct (default [] (arrays h !! items) !! i).
Qed.

Lemma call_other_array l items h arr :
  arr ≠ items → arrays (call l items h).1 !! arr = arrays h !! arr.
Proof.
  intros Hne. revert h. induction l as [|m l IH]; intros h; simpl; [reflexivity|].
  pose proof (mutate_other_array items m h arr Hne) as Hm.
  destruct (mutate items m h) as [h1 []]; simpl in *.
  - now rewrite IH.
  - exact Hm.
Qed.

(** A listener that only changes the array leaves every record as it is,
    and returns. *)
Lemma call_array_only l items h :
  forallb is_OnArray l = true →
  records (call l items h).1 = records h ∧ (call l items h).2 = Normal.
Proof.
  revert h. induction l as [|m l IH]; intros h Hl; simpl; [now split|].
  simpl in Hl. apply andb_true_iff in Hl as [Hm Hl].
  destruct m as [f | i f]; [|discriminate Hm]. simpl.
  destruct (IH (mkHeap (alter f items (arrays h)) (records h)) Hl) as [IH1 IH2].
  now split.
Qed.

(** The copy [slice] makes is a new array: it is not the array copied. *)
Lemma slice_fresh arr h refs :
  arrays h !! arr = Some refs →
  (slice arr h).1 ≠ arr ∧
  arrays (slice arr h).2 !! arr = Some refs ∧
  arrays (slice arr h).2 !! (slice arr h).1 = Some refs ∧
  records (slice arr h).2 = records h.
Proof.
  intros Harr. unfold slice; simpl.
  assert (Hne : fresh (dom (arrays h)) ≠ arr).
  { intros Heq. apply (is_fresh (dom (arrays h))).
    rewrite Heq. apply elem_of_dom. eauto. }
  repeat split.
  - exact Hne.
  - now rewrite lookup_insert_ne.
  - now rewrite lookup_insert_eq, Harr.
Qed.

(** Whatever the listeners do, the store's array holds the same
    references after the notification. *)
Lemma notify_array_kept (ls : list Refs.Listener) arr h refs :
  arrays h !! arr = Some refs →
  arrays (notify ls arr h).1 !! arr = Some refs.
Proof.
  revert h. induction ls as [|l ls IH]; intros h Harr; [exact Harr|].
  cbn [notify].
  destruct (slice_fresh arr h refs Harr) as (Hne & Hkept & _ & _).
  destruct (slice arr h) as [items h1]; cbn [fst snd] in *.
  pose proof (call_other_array l items h1 arr (not_eq_sym Hne)) as Hcall.
  destruct (call l items h1) as [h2 []]; cbn [fst snd] in *.
  - apply IH. now rewrite Hcall.
  - now rewrite Hcall.
Qed.

Lemma notify_array_only (ls : list Refs.Listener) arr h :
  Forall (λ l, forallb is_OnArray l = true) ls →
  records (notify ls arr h).1 = records h ∧ (notify ls arr h).2 = Normal.
Proof.
  intros Hls. revert h.
  induction Hls as [|l ls Hl _ IH]; intros h; [now split|].
  cbn [notify].
  pose proof (call_array_only l (slice arr h).1 (slice arr h).2 Hl) as [Hr Hc].
  destruct (slice arr h) as [items h1] eqn:Es; cbn [fst snd] in *.
  destruct (call l items h1) as [h2 c]; cbn [fst snd] in *. subst c.
  destruct (IH h2) as [IH1 IH2]. rewrite IH1, Hr.
  split; [|exact IH2].
  unfold slice in Es. now injection Es as _ <-.
Qed.

(** C3 (amended): the array handed to the listeners is a copy of the
    store's array.  Whatever the listeners do through it, to the array or
    to the records in it, the store's array holds after [addProject] the
    references it held before followed by the new one: no record is
    added, removed, replaced or moved.  Listeners that change only the
    array they received change no record either: the heap of records is
    the old one plus the new record, and the call returns.  (A write to
    a field of a record of the array is not covered: the record is the
    store's own.) *)
Theorem snapshot_is_a_copy_of_the_array
    (this : Refs.ProjectState) h (refs : list nat) (rnd t d : string) (n : JS.number) :
  arrays h !! Refs.projects this = Some refs →
  let newProject := fresh (dom (records h)) in
  let result := Refs.addProject rnd t d n this h in
  arrays result.1 !! Refs.projects this = Some (refs ++ [newProject]) ∧
  (Forall (λ l, forallb is_OnArray l = true) (Refs.listeners this) →
   result.2 = Normal ∧
   records result.1 = <[newProject := mkProject rnd t d n Active]> (records h)).
Proof.
  intros Harr newProject result. subst result.
  unfold Refs.addProject, new_Project. cbn zeta. fold newProject.
  set (h1 := push _ _ _).
  assert (H1 : arrays h1 !! Refs.projects this = Some (refs ++ [newProject])).
  { unfold h1, push; simpl. now rewrite lookup_alter_eq, Harr. }
  split.
  - now apply notify_array_kept.
  - intros Hls.
    destruct (notify_array_only (Refs.listeners this) (Refs.projects this) h1 Hls)
      as [Hr Hc].
    split; [exact Hc|]. now rewrite Hr.
Qed.

(** X22: with listeners that change only the array they receive, the
    reference-level store does what the value-level [addProject] does: the
    records the store holds are those it held, followed by the new
    record. *)
Lemma addProject_contents
    (this : Refs.ProjectState) h (refs : list nat) (rnd t d : string) (n : JS.number) :
  arrays h !! Refs.projects this = Some refs →
  Forall (λ r, r ∈ dom (records h)) refs →
  Forall (λ l, forallb is_OnArray l = true) (Refs.listeners this) →
  contents (Refs.projects this) (Refs.addProject rnd t d n this h).1
  = contents (Refs.projects this) h ++ [mkProject rnd t d n Active].
Proof.
  intros Harr Hwf Hls.
  unfold Refs.addProject, new_Project. cbn zeta.
  set (r := fresh (dom (records h))).
  set (h1 := push _ _ _).
  assert (H1 : arrays h1 !! Refs.projects this = Some (refs ++ [r])).
  { unfold h1, push; simpl. now rewrite lookup_alter_eq, Harr. }
  destruct (notify_array_only (Refs.listeners this) (Refs.projects this) h1 Hls)
    as [Hr _].
  unfold contents.
  rewrite (notify_array_kept _ _ _ _ H1), Hr, Harr. simpl.
  rewrite omap_app. simpl. rewrite lookup_insert_eq. f_equal.
  apply list_omap_ext.
  clear Harr H1.
  induction Hwf as [|x xs Hx _ IH]; [constructor|].
  constructor; [|exact IH].
  apply lookup_insert_ne. intros Heq.
  apply (is_fresh (dom (records h))). fold r. now rewrite Heq.
Qed.

End Sharing.

(** On the fresh store with a listener that pushes onto, and then empties,
    the array it receives. *)
Lemma snapshot_is_a_copy_of_the_array_witness :
  let '(this, h) := Refs.getInstance [[Refs.OnArray (λ refs, refs ++ [7]); Refs.OnArray (λ _, [])]] in
  let result := Refs.addProject "0.42" "Build API" "desc" (JS.int 3) this h in
  Refs.arrays result.1 !! 0 = Some [0] ∧
  result.2 = Normal ∧
  Refs.contents 0 result.1 = [mkProject "0.42" "Build API" "desc" (JS.int 3) Active].
Proof.
  pose proof (snapshot_is_a_copy_of_the_array
    (Refs.mkProjectState [[Refs.OnArray (λ refs, refs ++ [7]); Refs.OnArray (λ _, [])]] 0)
    (Refs.mkHeap {[ 0 := [] ]} ∅) [] "0.42" "Build API" "desc" (JS.int 3) eq_refl)
    as [Harr Hrec].
  destruct Hrec as [Hc _]; [repeat constructor|].
  split; [exact Harr|]. split; [exact Hc|]. vm_compute. reflexivity.
Defined.

(** C3, as stated, fails: a listener that writes to a field of a record of
    the array it received changes the store's own record.  The store
    created the record with status [Active]; after the call it holds it
    with status [Finished], and so does the array the next call hands
    out (object 2). *)
Lemma record_write_reaches_the_store :
  let '(this, h) := Refs.getInstance [[Refs.OnRecord 0 (set_status Finished)]] in
  let h1 := (Refs.addProject "0.42" "Build API" "desc" (JS.int 3) this h).1 in
  let h2 := (Refs.addProject "0.43" "Second one" "desc" (JS.int 3) this h1).1 in
  Refs.contents (Refs.projects this) h1
    = [mkProject "0.42" "Build API" "desc" (JS.int 3) Finished] ∧
  Refs.contents (Refs.projects this) h1
    ≠ [mkProject "0.42" "Build API" "desc" (JS.int 3) Active] ∧
  Refs.contents 2 h2
    = [mkProject "0.42" "Build API" "desc" (JS.int 3) Finished;
       mkProject "0.43" "Second one" "desc" (JS.int 3) Active].
Proof.
  split; [vm_compute; reflexivity|].
  split; [|vm_compute; reflexivity].
  vm_compute. discriminate.
Qed.


(** * Further properties *)

(** ** Validation: what passes and what does not *)

Lemma lt_int (a b : Z) : JS.lt (JS.int a) (JS.int b) = (a <? b)%Z.
Proof.
  unfold JS.lt, JS.int, Qccompare. simpl.
  rewrite !inject_Z_Qred. unfold Qcompare, inject_Z; simpl.
  rewrite !Z.mul_1_r. unfold Z.ltb. now destruct (a ?= b)%Z.
Qed.

Lemma trimStart_white (s : string) :
  all_white_space s = true → JS.trimStart s = "".
Proof.
  induction s as [|c s IH]; simpl; [reflexivity|].
  intros H. apply andb_true_iff in H as [Hc Hs]. rewrite Hc. now apply IH.
Qed.

Lemma trimStart_empty_white (s : string) :
  JS.trimStart s = "" → all_white_space s = true.
Proof.
  induction s as [|c s IH]; simpl; [reflexivity|].
  destruct (JS.is_white_space c); [exact IH | discriminate].
Qed.

Lemma trimStart_white_empty (s : string) :
  all_white_space (JS.trimStart s) = true → JS.trimStart s = "".
Proof.
  induction s as [|c s IH]; simpl; [reflexivity|].
  destruct (JS.is_white_space c) eqn:Hc; [exact IH|].
  simpl. now rewrite Hc.
Qed.

Lemma rev_app_white (s acc : string) :
  all_white_space (String.rev_app s acc) = all_white_space s && all_white_space acc.
Proof.
  revert acc. induction s as [|c s IH]; intros acc; simpl; [reflexivity|].
  rewrite IH. simpl. now destruct (JS.is_white_space c), (all_white_space s).
Qed.

Lemma rev_app_empty (s acc : string) :
  String.rev_app s acc = "" → s = "" ∧ acc = "".
Proof.
  revert acc. induction s as [|c s IH]; intros acc; simpl; [now split|].
  intros H. apply IH in H as [_ H]. discriminate H.
Qed.

(** [trim] leaves nothing exactly when every code unit is white space. *)
Lemma trim_empty_iff (s : string) :
  JS.trim s = "" ↔ all_white_space s = true.
Proof.
  unfold JS.trim, JS.trimEnd, String.rev. split.
  - intros H. apply rev_app_empty in H as [H _].
    apply trimStart_empty_white in H.
    rewrite rev_app_white, andb_true_r in H.
    now apply trimStart_empty_white, trimStart_white_empty.
  - intros H. now rewrite (trimStart_white s H).
Qed.

Lemma not_blank_Str (s : string) : not_blank (Str s) = negb (all_white_space s).
Proof.
  unfold not_blank. f_equal.
  destruct (all_white_space s) eqn:Hw.
  - apply trim_empty_iff in Hw. now rewrite Hw.
  - destruct (JS.trim s) eqn:Ht; [|reflexivity].
    apply trim_empty_iff in Ht. congruence.
Qed.

(** X1: the titles the form accepts are exactly those of 6 to 14 code
    units that are not white space throughout. *)
Theorem title_accepted_iff (enteredTitle : string) :
  validate (titleValidatable enteredTitle) = true ↔
  (5 < String.length enteredTitle < 15)%nat ∧ all_white_space enteredTitle = false.
Proof.
  unfold validate, titleValidatable; cbn [value required minLength maxLength min max truthy].
  rewrite not_blank_Str. unfold JS.gt, JS.of_nat. rewrite !lt_int.
  rewrite !andb_true_iff, negb_true_iff, !Z.ltb_lt. split.
  - intros [[[_ Hw] H5] H15]. split; [lia | exact Hw].
  - intros [[H5 H15] Hw]. repeat split; try assumption; lia.
Qed.

(** X2: a string validates against integer length bounds [a] and [b], and
    nothing else, exactly when its length lies strictly between them; so no
    string validates when [b ≤ a + 1]. *)
Theorem validate_length_window (s : string) (a b : Z) (r : option bool)
    (mn mx : option JS.number) :
  truthy r = false →
  (validate (mkValidatable (Str s) r (Some (JS.int a)) (Some (JS.int b)) mn mx) = true
   ↔ (a < Z.of_nat (String.length s) < b)%Z) ∧
  ((b ≤ a + 1)%Z →
   validate (mkValidatable (Str s) r (Some (JS.int a)) (Some (JS.int b)) mn mx) = false).
Proof.
  intros Hr.
  assert (E : validate (mkValidatable (Str s) r (Some (JS.int a)) (Some (JS.int b)) mn mx)
              = (a <? Z.of_nat (String.length s))%Z && (Z.of_nat (String.length s) <? b)%Z).
  { unfold validate; cbn [value required minLength maxLength min max]. rewrite Hr.
    unfold JS.gt, JS.of_nat. rewrite !lt_int. now destruct mn, mx. }
  rewrite E. split.
  - rewrite andb_true_iff, !Z.ltb_lt. tauto.
  - intros Hab. apply andb_false_iff.
    destruct (Z.ltb_spec a (Z.of_nat (String.length s))); [right | now left].
    apply Z.ltb_ge. lia.
Qed.

Lemma validate_length_window_witness :
  validate (mkValidatable (Str "Build API") None (Some (JS.int 5)) (Some (JS.int 15)) None None)
  = true ∧
  validate (mkValidatable (Str "Build API") None (Some (JS.int 5)) (Some (JS.int 6)) None None)
  = false.
Proof.
  split.
  - apply (proj1 (validate_length_window "Build API" 5 15 None None None eq_refl)).
    simpl. lia.
  - apply (proj2 (validate_length_window "Build API" 5 6 None None None eq_refl)). lia.
Defined.

(** X3: the numeric bounds are strict too.  A number equal to the
    configured [min], or to the configured [max], is invalid. *)
Theorem validate_numeric_bounds_strict (o : Validatable) (n : JS.number) :
  value o = Num n →
  min o = Some n ∨ max o = Some n →
  validate o = false.
Proof.
  intros Hv Hb. rewrite validate_configured, Hv.
  apply not_true_is_false. intros Hall. rewrite forallb_forall in Hall.
  destruct Hb as [Hmin | Hmax].
  - specialize (Hall (Min n)). cbn [passes] in Hall. rewrite lt_irrefl in Hall.
    assert (false = true) as Hf; [|discriminate Hf].
    apply Hall. unfold configured. rewrite Hmin.
    rewrite !in_app_iff. do 3 right. left. now left.
  - specialize (Hall (Max n)). cbn [passes] in Hall. rewrite lt_irrefl in Hall.
    assert (false = true) as Hf; [|discriminate Hf].
    apply Hall. unfold configured. rewrite Hmax.
    rewrite !in_app_iff. do 4 right. now left.
Qed.

Lemma validate_numeric_bounds_strict_witness :
  validate (mkValidatable (Num (JS.int 1)) None None None (Some (JS.int 1)) (Some (JS.int 5)))
  = false.
Proof.
  apply (validate_numeric_bounds_strict _ (JS.int 1)); [reflexivity | left; reflexivity].
Defined.

Lemma lt_NaN_l (x : JS.number) : JS.lt JS.NaN x = false.
Proof. reflexivity. Qed.

Lemma lt_NaN_r (x : JS.number) : JS.lt x JS.NaN = false.
Proof. now destruct x. Qed.

(** X4: [NaN] never validates against a bound.  The value [NaN] is invalid
    as soon as [min] or [max] is configured, and a bound that is [NaN]
    rejects every value it concerns. *)
Theorem validate_NaN (o : Validatable) :
  (value o = Num JS.NaN ∧ (is_Some (min o) ∨ is_Some (max o))) ∨
  ((∃ n, value o = Num n) ∧ (min o = Some JS.NaN ∨ max o = Some JS.NaN)) ∨
  ((∃ s, value o = Str s) ∧ (minLength o = Some JS.NaN ∨ maxLength o = Some JS.NaN)) →
  validate o = false.
Proof.
  destruct o as [v r minL maxL mn mx]; unfold validate; simpl.
  unfold JS.gt.
  intros [[-> [[m ->] | [m ->]]] | [[[n ->] [-> | ->]] | [[s ->] [-> | ->]]]];
    rewrite ?lt_NaN_l, ?lt_NaN_r, ?andb_false_r;
    repeat match goal with
           | |- context [match ?x with Some _ => _ | None => _ end] => destruct x
           end;
    rewrite ?andb_false_r, ?andb_false_l; reflexivity.
Qed.

Lemma validate_NaN_witness :
  validate (mkValidatable (Num JS.NaN) None None None (Some (JS.int 1)) None) = false ∧
  validate (mkValidatable (Str "Build API") None (Some JS.NaN) None None None) = false.
Proof.
  split.
  - apply validate_NaN. left. split; [reflexivity | left; eauto].
  - apply validate_NaN. right; right. split; [eauto | left; reflexivity].
Defined.

(** X5: dropping checks from a configuration never turns a valid value
    into an invalid one. *)
Theorem validate_fewer_checks (o o' : Validatable) :
  value o' = value o →
  (truthy (required o') = true → truthy (required o) = true) →
  minLength o' = None ∨ minLength o' = minLength o →
  maxLength o' = None ∨ maxLength o' = maxLength o →
  min o' = None ∨ min o' = min o →
  max o' = None ∨ max o' = max o →
  validate o = true → validate o' = true.
Proof.
  intros Hv Hr HminL HmaxL Hmin Hmax.
  rewrite !validate_configured, Hv, !forallb_forall.
  intros Hall c Hc. apply Hall. clear Hall.
  unfold configured in *. rewrite !in_app_iff in *.
  destruct Hc as [Hc | [Hc | [Hc | [Hc | Hc]]]].
  - left. destruct (truthy (required o')); [|destruct Hc].
    now rewrite Hr.
  - right; left. destruct HminL as [E | E]; rewrite E in Hc; [destruct Hc | exact Hc].
  - do 2 right; left. destruct HmaxL as [E | E]; rewrite E in Hc; [destruct Hc | exact Hc].
  - do 3 right; left. destruct Hmin as [E | E]; rewrite E in Hc; [destruct Hc | exact Hc].
  - do 4 right. destruct Hmax as [E | E]; rewrite E in Hc; [destruct Hc | exact Hc].
Qed.

Lemma validate_fewer_checks_witness :
  validate (mkValidatable (Str "Build API") None None (Some (JS.int 15)) None None) = true.
Proof.
  apply (validate_fewer_checks (titleValidatable "Build API"));
    try reflexivity; try (now left); try (now right).
Defined.

(** X6: with [required] set, a string made of white space only is invalid,
    whatever its length and whatever else is configured. *)
Theorem required_rejects_white_space (o : Validatable) (s : string) :
  required o = Some true →
  value o = Str s →
  all_white_space s = true →
  validate o = false.
Proof.
  intros Hr Hv Hw. rewrite validate_configured, Hv.
  apply not_true_is_false. intros Hall. rewrite forallb_forall in Hall.
  specialize (Hall Required). cbn [passes] in Hall.
  rewrite not_blank_Str, Hw in Hall.
  assert (false = true) as Hf; [|discriminate Hf].
  apply Hall. unfold configured. rewrite Hr. now left.
Qed.

Lemma required_rejects_white_space_witness :
  validate (titleValidatable "        ") = false.
Proof.
  apply (required_rejects_white_space _ "        "); reflexivity.
Defined.

(** ** The store: late listeners, throwing listeners, growth *)

Section StoreMore.

Context {W : Type}.
Implicit Types (this : ProjectState W) (w : W).

Lemma notify_app (ls1 ls2 : list (Listener W)) items w :
  notify (ls1 ++ ls2) items w =
    match notify ls1 items w with
    | (w1, Normal) => notify ls2 items w1
    | (w1, Throw) => (w1, Throw)
    end.
Proof.
  revert w. induction ls1 as [|l ls1 IH]; intros w; simpl; [reflexivity|].
  destruct (l items w) as [w1 []]; [apply IH | reflexivity].
Qed.

(** X7: a listener registered on a store that already holds records is
    called, at the next [addProject] that returns, after the listeners
    registered before it and with all the records: those the store held
    before the listener existed, followed by the new one. *)
Theorem late_listener_receives_all_records
    (l : Listener W) (rnd t d : string) (n : JS.number) this w this' w' :
  addProject rnd t d n (addListener l this) w = (this', w', Normal) →
  let items := projects this ++ [mkProject rnd t d n Active] in
  projects this' = items ∧
  ∃ w1, calls_each (listeners this) items w w1 ∧ l items w1 = (w', Normal).
Proof.
  intros Hcall items. rewrite addProject_unfold in Hcall. cbn zeta in Hcall.
  cbn [addListener listeners projects] in Hcall. fold items in Hcall.
  injection Hcall as <- Hw Hc. split; [reflexivity|].
  rewrite notify_app in Hw, Hc.
  destruct (notify (listeners this) items w) as [w1 []] eqn:E1; [|discriminate Hc].
  exists w1. split; [now apply notify_calls_each|].
  simpl in Hw, Hc. destruct (l items w1) as [w2 []]; [|discriminate Hc].
  simpl in Hw. now subst.
Qed.

(** X8: when a listener throws, the listeners registered before it have
    been called, those registered after it are not, the exception leaves
    [addProject], and the new record is in the store all the same. *)
Theorem throwing_listener_stops_the_broadcast
    (before after : list (Listener W)) (l : Listener W)
    (rnd t d : string) (n : JS.number) this w w1 w2 :
  listeners this = before ++ l :: after →
  let items := projects this ++ [mkProject rnd t d n Active] in
  calls_each before items w w1 →
  l items w1 = (w2, Throw) →
  addProject rnd t d n this w = (mkProjectState (listeners this) items, w2, Throw).
Proof.
  intros Hls items Hbefore Hl.
  rewrite addProject_unfold. cbn zeta. fold items.
  rewrite Hls at 2 3. rewrite notify_app.
  apply notify_calls_each in Hbefore. rewrite Hbefore. simpl. now rewrite Hl.
Qed.

(** X9: no run of the store's operations removes, replaces or reorders
    anything: the records and the listeners held before are a prefix of
    those held after, and the number of records grows by the number of
    [addProject] calls, whether or not listeners throw. *)
Theorem store_only_grows (os : list (Op W)) this w :
  projects this `prefix_of` projects (execs os this w).1 ∧
  listeners this `prefix_of` listeners (execs os this w).1 ∧
  length (projects (execs os this w).1) = length (projects this) + length (draws os).
Proof.
  destruct (execs_state os this w) as [Hp Hl]. rewrite Hp, Hl.
  split; [now exists (created os)|]. split; [now exists (registered os)|].
  rewrite length_app, <- draws_created, length_map. reflexivity.
Qed.

End StoreMore.

Lemma late_listener_receives_all_records_witness :
  let first := mkProject "0.25" "First project" "one" (JS.int 1) Active in
  let second := mkProject "0.75" "Second project" "two" (JS.int 2) Active in
  ∃ w1, calls_each [] [first; second] [] w1 ∧ probe [first; second] w1 = ([[first; second]], Normal).
Proof.
  intros first second.
  exact (proj2 (late_listener_receives_all_records probe
           "0.75" "Second project" "two" (JS.int 2)
           (mkProjectState [] [first]) [] _ _ eq_refl)).
Defined.

Lemma throwing_listener_stops_the_broadcast_witness :
  let counts : Listener nat := λ _ w, (S w, Normal) in
  let throws : Listener nat := λ _ w, (w, Throw) in
  addProject "0.5" "Build API" "desc" (JS.int 3)
    (mkProjectState [counts; throws; counts] []) 0
  = (mkProjectState [counts; throws; counts]
       [mkProject "0.5" "Build API" "desc" (JS.int 3) Active], 1, Throw).
Proof.
  intros counts throws.
  apply (throwing_listener_stops_the_broadcast [counts] [counts] throws
           "0.5" "Build API" "desc" (JS.int 3)
           (mkProjectState [counts; throws; counts] []) 0 1 1 eq_refl).
  - econstructor; [reflexivity | constructor].
  - reflexivity.
Defined.

(** ** The loaded page: submissions *)

Lemma lists_present_insert t items doc pg :
  lists_present pg → document pg = doc →
  lists_present (set_document (<[listId t := items]> doc) pg).
Proof.
  intros [Ha Hf] <-. unfold lists_present; cbn [document set_document].
  split; apply lookup_insert_is_Some'; now right.
Qed.

Lemma Part000_configure_only_draws t : only_draws (Part000.configure t).
Proof.
  intros items pg Hpres.
  assert (Ht : is_Some (document pg !! listId t)) by (destruct t; apply Hpres).
  eexists. split; [apply (Part000_configure_spec t items pg Ht)|].
  split; [|split].
  - apply lists_present_insert; [|apply set_assignedProjects_document].
    destruct Hpres as [Ha Hf]. split; now rewrite set_assignedProjects_document.
  - now destruct t.
  - now destruct t.
Qed.

Lemma Part001_listener_only_draws t : only_draws (Part001.listener t).
Proof.
  intros items pg Hpres.
  assert (Ht : is_Some (document pg !! listId t)) by (destruct t; apply Hpres).
  destruct Ht as [old Hold].
  eexists. split; [apply (Part001_listener_spec t items old pg Hold)|].
  split; [|split].
  - apply lists_present_insert; [|apply set_assignedProjects_document].
    destruct Hpres as [Ha Hf]. split; now rewrite set_assignedProjects_document.
  - now destruct t.
  - now destruct t.
Qed.

Section Loaded.

Variable configure : ProjectListType → Listener Page.
Hypothesis configure_draws : ∀ t, only_draws (configure t).

Lemma notify_draws (items : list Project) (pg : Page) :
  lists_present pg →
  ∃ pg', notify [configure active; configure finished] items pg = (pg', Normal) ∧
         lists_present pg' ∧ alerts pg' = alerts pg ∧ form pg' = form pg.
Proof.
  intros Hpres. cbn [notify].
  destruct (configure_draws active items pg Hpres) as (pg1 & -> & Hp1 & Ha1 & Hf1).
  destruct (configure_draws finished items pg1 Hp1) as (pg2 & -> & Hp2 & Ha2 & Hf2).
  exists pg2. repeat split; try apply Hp2; congruence.
Qed.

(** What a submit does on the loaded page. *)
Lemma submit_loaded (rnd : string) (a : App) :
  loaded configure a →
  let pg := page a in
  if validate (titleValidatable (titleInputElement pg)) then
    ∃ pg', submitHandler rnd a =
             (mkApp (mkProjectState (listeners (projectState a))
                       (projects (projectState a) ++
                          [mkProject rnd (titleInputElement pg) (descriptionInputElement pg)
                             (JS.to_number (peopleInputElement pg)) Active]))
                    (clearInputs pg'), Normal) ∧
           lists_present pg' ∧ alerts pg' = alerts pg
  else
    submitHandler rnd a = (mkApp (projectState a) (alert "Invalid user input!" pg), Normal).
Proof.
  intros [Hl Hpres] pg. subst pg.
  unfold submitHandler, gatherUserInput.
  destruct (validate _); cbn [negb]; [|reflexivity].
  rewrite addProject_unfold. cbn zeta. rewrite Hl.
  destruct (notify_draws (projects (projectState a) ++
              [mkProject rnd (titleInputElement (page a)) (descriptionInputElement (page a))
                 (JS.to_number (peopleInputElement (page a))) Active]) (page a) Hpres)
    as (pg' & -> & Hp & Ha & _).
  exists pg'. cbn. auto.
Qed.

Lemma boot_loaded : loaded configure (boot configure).
Proof.
  split; [reflexivity|].
  split; cbn; [rewrite lookup_insert_ne by discriminate|];
    rewrite lookup_insert_eq; eauto.
Qed.

Lemma step_loaded (e : Event) (a : App) : loaded configure a → loaded configure (step e a).
Proof.
  intros Hload. destruct e as [ti de pe | rnd].
  - exact Hload.
  - pose proof (submit_loaded rnd a Hload) as Hs. cbn zeta in Hs.
    unfold step. destruct Hload as [Hl Hpres].
    destruct (validate _).
    + destruct Hs as (pg' & -> & Hp & _). split; [exact Hl | exact Hp].
    + rewrite Hs. split; [exact Hl | exact Hpres].
Qed.

Lemma run_loaded (es : list Event) (a : App) :
  loaded configure a → loaded configure (run es a).
Proof. intros H. apply run_ind; [exact H | apply step_loaded]. Qed.

End Loaded.

(** Both revisions with listeners are loaded pages whose listeners only
    draw. *)
Lemma revisions_loaded (boot0 : App) (es : list Event) :
  boot0 = Part000.boot ∨ boot0 = Part001.boot →
  ∃ configure, (∀ t, only_draws (configure t)) ∧ loaded configure (run es boot0).
Proof.
  intros [-> | ->].
  - exists Part000.configure. split; [apply Part000_configure_only_draws|].
    apply run_loaded; [apply Part000_configure_only_draws | apply boot_loaded].
  - exists Part001.listener. split; [apply Part001_listener_only_draws|].
    apply run_loaded; [apply Part001_listener_only_draws | apply boot_loaded].
Qed.

(** X10: on the loaded page, of part_000 as of part_001, no sequence of
    events leads to a state in which the submit handler throws: the list
    each view draws into is always in the document. *)
Theorem submit_never_throws (boot0 : App) (es : list Event) (rnd : string) :
  boot0 = Part000.boot ∨ boot0 = Part001.boot →
  (submitHandler rnd (run es boot0)).2 = Normal.
Proof.
  intros Hboot.
  destruct (revisions_loaded boot0 es Hboot) as (configure & Hdraws & Hload).
  pose proof (submit_loaded configure Hdraws rnd _ Hload) as Hs. cbn zeta in Hs.
  destruct (validate _).
  - now destruct Hs as (pg' & -> & _).
  - now rewrite Hs.
Qed.

Lemma submit_never_throws_witness :
  (submitHandler "0.2"
     (run [UserInput "Build API" "desc" "3"; Submit "0.1"; UserInput "Second one" "" "x"]
        Part001.boot)).2 = Normal.
Proof. apply submit_never_throws. now right. Defined.

(** X11: on the loaded page, a submit with a valid title appends exactly
    one record, carrying the title and the description as typed (not
    trimmed), the people input converted by unary [+], status [Active] and
    the random id; it empties the three inputs and shows no alert. *)
Theorem valid_submit_stores_and_clears (boot0 : App) (es : list Event) (rnd : string) :
  boot0 = Part000.boot ∨ boot0 = Part001.boot →
  let a := run es boot0 in
  validate (titleValidatable (titleInputElement (page a))) = true →
  let a' := step (Submit rnd) a in
  projects (projectState a') =
    projects (projectState a) ++
      [mkProject rnd (titleInputElement (page a)) (descriptionInputElement (page a))
         (JS.to_number (peopleInputElement (page a))) Active] ∧
  form (page a') = ("", "", "") ∧
  alerts (page a') = alerts (page a).
Proof.
  intros Hboot a Hvalid a'. subst a'.
  destruct (revisions_loaded boot0 es Hboot) as (configure & Hdraws & Hload).
  pose proof (submit_loaded configure Hdraws rnd _ Hload) as Hs. cbn zeta in Hs.
  fold a in Hs. rewrite Hvalid in Hs. destruct Hs as (pg' & Hs & _ & Ha).
  unfold step. rewrite Hs. cbn. auto.
Qed.

Lemma valid_submit_stores_and_clears_witness :
  let a := run [UserInput "  Build API " "" "2.5"] Part000.boot in
  let a' := step (Submit "0.42") a in
  projects (projectState a')
  = [mkProject "0.42" "  Build API " "" (JS.to_number "2.5") Active] ∧
  form (page a') = ("", "", "") ∧
  alerts (page a') = [].
Proof.
  exact (valid_submit_stores_and_clears Part000.boot
           [UserInput "  Build API " "" "2.5"] "0.42" (or_introl eq_refl) eq_refl).
Defined.

(** X12: submitting twice in a row stores one record, not two.  After a
    valid submit the inputs are empty, so a second submit, with nothing
    typed in between, is rejected with the alert. *)
Theorem resubmit_is_rejected (boot0 : App) (es : list Event) (rnd1 rnd2 : string) :
  boot0 = Part000.boot ∨ boot0 = Part001.boot →
  let a := run es boot0 in
  validate (titleValidatable (titleInputElement (page a))) = true →
  let a2 := run [Submit rnd1; Submit rnd2] a in
  projects (projectState a2) =
    projects (projectState a) ++
      [mkProject rnd1 (titleInputElement (page a)) (descriptionInputElement (page a))
         (JS.to_number (peopleInputElement (page a))) Active] ∧
  alerts (page a2) = alerts (page a) ++ ["Invalid user input!"].
Proof.
  intros Hboot a Hvalid a2. subst a2.
  destruct (revisions_loaded boot0 es Hboot) as (configure & Hdraws & Hload).
  pose proof (submit_loaded configure Hdraws rnd1 _ Hload) as Hs. cbn zeta in Hs.
  fold a in Hs. rewrite Hvalid in Hs. destruct Hs as (pg' & Hs & _ & Ha).
  cbn [run foldl].
  pose proof (f_equal fst Hs) as E1. cbn [fst] in E1.
  change (submitHandler rnd1 a).1 with (step (Submit rnd1) a) in E1. rewrite E1.
  unfold step, submitHandler, gatherUserInput. cbn. now rewrite Ha.
Qed.

Lemma resubmit_is_rejected_witness :
  let a2 := run [UserInput "Build API" "desc" "3"; Submit "0.1"; Submit "0.2"] Part000.boot in
  projects (projectState a2) = [mkProject "0.1" "Build API" "desc" (JS.int 3) Active] ∧
  alerts (page a2) = ["Invalid user input!"].
Proof.
  exact (resubmit_is_rejected Part000.boot [UserInput "Build API" "desc" "3"]
           "0.1" "0.2" (or_introl eq_refl) eq_refl).
Defined.

Lemma accounted_loaded (configure : ProjectListType → Listener Page) (es : list Event) (a : App) :
  (∀ t, only_draws (configure t)) →
  loaded configure a →
  length (alerts (page (run es a))) + length (projects (projectState (run es a)))
  = length (alerts (page a)) + length (projects (projectState a)) + submissions es.
Proof.
  intros Hdraws. revert a.
  induction es as [|e es IH]; intros a Hload; [simpl; unfold submissions; simpl; lia|].
  cbn [run foldl]. change (foldl _ (step e a) es) with (run es (step e a)).
  rewrite (IH _ (step_loaded configure Hdraws e a Hload)).
  destruct e as [ti de pe | rnd]; unfold submissions; cbn; [lia|].
  pose proof (submit_loaded configure Hdraws rnd a Hload) as Hs. cbn zeta in Hs.
  destruct (validate _).
  - destruct Hs as (pg' & -> & _ & Ha). cbn. rewrite Ha, length_app. simpl. lia.
  - rewrite Hs. cbn. rewrite length_app. simpl. lia.
Qed.

(** X13: every submit is accounted for.  On the loaded page, after any
    events, the number of alerts shown plus the number of records stored
    is the number of submit events: each submit is either rejected with
    one alert or stored as one record. *)
Theorem every_submission_accounted (boot0 : App) (es : list Event) :
  boot0 = Part000.boot ∨ boot0 = Part001.boot →
  length (alerts (page (run es boot0))) + length (projects (projectState (run es boot0)))
  = submissions es.
Proof.
  intros Hboot.
  destruct (revisions_loaded boot0 [] Hboot) as (configure & Hdraws & Hload).
  rewrite (accounted_loaded configure es boot0 Hdraws Hload).
  now destruct Hboot as [-> | ->].
Qed.

Lemma every_submission_accounted_witness :
  let es := [Submit "0.1"; UserInput "Build API" "desc" "3"; Submit "0.2"; Submit "0.3"] in
  length (alerts (page (run es Part000.boot)))
  + length (projects (projectState (run es Part000.boot))) = 3.
Proof. exact (every_submission_accounted Part000.boot _ (or_introl eq_refl)). Defined.


(** ** The list views of part_000, further *)

Lemma filter_all_Active (ps : list Project) :
  all_Active ps →
  List.filter (λ x, bool_decide (status x = Active)) ps = ps ∧
  List.filter (λ x, bool_decide (status x = Finished)) ps = [].
Proof.
  induction 1 as [|p ps Hp _ [IH1 IH2]]; [now split|].
  simpl. rewrite Hp. cbn. now rewrite IH1, IH2.
Qed.

(** X15: in every state part_000 reaches, the Active list shows the titles
    of all the records of the store, one item each, in the order they were
    added, and the Finished list shows nothing. *)
Theorem Part000_lists_show_the_store (es : list Event) :
  let a := run es Part000.boot in
  document (page a) !! "active-project-list" = Some (map title (projects (projectState a))) ∧
  document (page a) !! "finished-project-list" = Some [] ∧
  activePrjLiist (page a) = projects (projectState a) ∧
  finishedPrjLiist (page a) = [].
Proof.
  intros a.
  destruct (Part000_reachable es) as [_ Hshow]. fold a in Hshow.
  pose proof (run_Inv Part000.configure Part000_configure_keeps es) as (_ & Hact & _).
  change (run es (boot Part000.configure)) with a in Hact.
  destruct (filter_all_Active _ Hact) as [Fa Ff].
  destruct (Hshow active) as [Ha1 Ha2], (Hshow finished) as [Hf1 Hf2].
  cbn [assignedProjects partition] in Ha1, Ha2, Hf1, Hf2.
  rewrite Fa in Ha1. rewrite Ff in Hf1. rewrite Ha1 in Ha2. rewrite Hf1 in Hf2.
  repeat split; assumption.
Qed.

(** X16: a part_000 view shows its last notification only.  Whatever array
    an earlier notification carried, the state after a notification is the
    one it would leave had the earlier notification not taken place. *)
Theorem Part000_last_notification_wins (t : ProjectListType)
    (items1 items2 : list Project) (pg : Page) :
  is_Some (document pg !! listId t) →
  Part000.configure t items2 (Part000.configure t items1 pg).1
  = Part000.configure t items2 pg.
Proof.
  intros Ht.
  rewrite (Part000_configure_spec t items1 pg Ht). cbn [fst].
  rewrite !Part000_configure_spec; try assumption.
  - f_equal. destruct t; cbn; now rewrite insert_insert_eq.
  - cbn [document set_document]. rewrite lookup_insert_eq. eauto.
Qed.

Lemma Part000_last_notification_wins_witness :
  let first := mkProject "0.1" "First one" "a" (JS.int 1) Active in
  let second := mkProject "0.2" "Second one" "b" (JS.int 2) Active in
  Part000.configure active [second] (Part000.configure active [first; second] (page Part000.boot)).1
  = Part000.configure active [second] (page Part000.boot).
Proof.
  intros first second.
  apply Part000_last_notification_wins. vm_compute. eauto.
Defined.

(** X17: the two views of part_000 do not interfere: notifying the Active
    view and then the Finished view leaves the page that notifying them in
    the other order leaves. *)
Theorem Part000_views_do_not_interfere (items : list Project) (pg : Page) :
  lists_present pg →
  notify [Part000.configure active; Part000.configure finished] items pg
  = notify [Part000.configure finished; Part000.configure active] items pg.
Proof.
  intros Hpres. rewrite (Part000_notify items pg Hpres).
  destruct Hpres as [Ha Hf]. cbn [notify].
  rewrite (Part000_configure_spec finished items pg Hf). cbn zeta.
  rewrite Part000_configure_spec.
  - f_equal. unfold set_document. cbn. f_equal.
    apply insert_insert_ne. discriminate.
  - cbn [set_document document set_assignedProjects].
    rewrite lookup_insert_ne by discriminate. exact Ha.
Qed.

Lemma Part000_views_do_not_interfere_witness :
  let p := mkProject "0.1" "Build API" "desc" (JS.int 3) Active in
  notify [Part000.configure active; Part000.configure finished] [p] (page Part000.boot)
  = notify [Part000.configure finished; Part000.configure active] [p] (page Part000.boot).
Proof.
  intros p. apply Part000_views_do_not_interfere.
  split; vm_compute; eauto.
Defined.

(** X18: what the submit handler of part_000 does when the Active list is
    not in the document.  With a valid title the record is stored and the
    Active view takes over its records, then [renderProjects] throws: the
    document is untouched, the Finished view is not notified, and the
    inputs are not cleared. *)
Theorem Part000_submit_without_list (rnd : string) (a : App) :
  listeners (projectState a) = [Part000.configure active; Part000.configure finished] →
  document (page a) !! listId active = None →
  validate (titleValidatable (titleInputElement (page a))) = true →
  let items :=
    projects (projectState a) ++
      [mkProject rnd (titleInputElement (page a)) (descriptionInputElement (page a))
         (JS.to_number (peopleInputElement (page a))) Active] in
  submitHandler rnd a
  = (mkApp (mkProjectState (listeners (projectState a)) items)
       (set_assignedProjects active
          (List.filter (λ x, bool_decide (status x = Active)) items) (page a)),
     Throw).
Proof.
  intros Hl Hnone Hvalid items.
  unfold submitHandler. rewrite (gatherUserInput_valid _ Hvalid), addProject_unfold.
  cbn zeta. fold items. rewrite Hl. cbn [notify].
  rewrite (Part000_configure_missing active items (page a) Hnone).
  reflexivity.
Qed.

Lemma Part000_submit_without_list_witness :
  let a := mkApp (projectState Part000.boot) (mkPage ∅ [] [] "Build API" "desc" "3" []) in
  let p := mkProject "0.42" "Build API" "desc" (JS.int 3) Active in
  submitHandler "0.42" a
  = (mkApp (mkProjectState (listeners (projectState a)) [p])
       (mkPage ∅ [p] [] "Build API" "desc" "3" []), Throw).
Proof.
  intros a p.
  exact (Part000_submit_without_list "0.42" a eq_refl eq_refl eq_refl).
Defined.

(** ** The list views of part_001, further *)

Lemma drawn_so_far_snoc (ps : list Project) (p : Project) :
  drawn_so_far (ps ++ [p]) = drawn_so_far ps ++ map title (ps ++ [p]).
Proof.
  unfold drawn_so_far. rewrite length_app. simpl.
  rewrite Nat.add_1_r, seq_S, flat_map_app. simpl. rewrite app_nil_r.
  rewrite take_ge by (rewrite length_app; simpl; lia).
  f_equal. rewrite !flat_map_concat_map. f_equal.
  apply map_ext_in. intros k Hk. apply in_seq in Hk.
  now rewrite take_app_le by lia.
Qed.

Lemma drawn_so_far_length (ps : list Project) :
  2 * length (drawn_so_far ps) = length ps * (length ps + 1).
Proof.
  induction ps as [|p ps IH] using rev_ind; [reflexivity|].
  rewrite drawn_so_far_snoc, !length_app, length_map, length_app. simpl. lia.
Qed.

Lemma Part001_reachable (es : list Event) :
  let a := run es Part001.boot in
  listeners (projectState a) = [Part001.listener active; Part001.listener finished] ∧
  ∀ t, assignedProjects t (page a) = projects (projectState a) ∧
       document (page a) !! listId t = Some (drawn_so_far (projects (projectState a))).
Proof.
  apply (run_ind (λ a,
    listeners (projectState a) = [Part001.listener active; Part001.listener finished] ∧
    ∀ t, assignedProjects t (page a) = projects (projectState a) ∧
         document (page a) !! listId t = Some (drawn_so_far (projects (projectState a))))).
  - split; [reflexivity|]. intros []; split; reflexivity.
  - intros e a [Hl Hs]. destruct e as [ti de pe | rnd].
    + split; [exact Hl|]. intros t. destruct (Hs t) as [H1 H2].
      split; destruct t; assumption.
    + unfold step, submitHandler, gatherUserInput.
      destruct (validate _); cbn [negb].
      * rewrite addProject_unfold, Hl. cbn zeta. cbn [notify].
        destruct (Hs active) as [_ Hda], (Hs finished) as [_ Hdf].
        rewrite (Part001_listener_spec active _ _ _ Hda). cbn zeta.
        erewrite (Part001_listener_spec finished);
          [| cbn [set_document document set_assignedProjects];
             rewrite lookup_insert_ne by discriminate; exact Hdf ].
        cbn -[drawn_so_far]. split; [reflexivity|].
        intros []; split; cbn -[drawn_so_far]; try reflexivity.
        -- rewrite lookup_insert_ne by discriminate.
           now rewrite lookup_insert_eq, drawn_so_far_snoc.
        -- now rewrite lookup_insert_eq, drawn_so_far_snoc.
      * cbn. split; [exact Hl|]. intros t. destruct (Hs t) as [H1 H2].
        split; destruct t; assumption.
Qed.

(** X19: in every state part_001 reaches, each view holds all the records
    of the store, and each list shows, for every record added so far, the
    titles of all the records the store held once it was added: with [N]
    records in the store a list has [N (N + 1) / 2] items. *)
Theorem Part001_lists_accumulate (es : list Event) (t : ProjectListType) :
  let a := run es Part001.boot in
  let ps := projects (projectState a) in
  assignedProjects t (page a) = ps ∧
  document (page a) !! listId t = Some (drawn_so_far ps) ∧
  2 * length (drawn_so_far ps) = length ps * (length ps + 1).
Proof.
  cbn zeta. destruct (Part001_reachable es) as [_ H].
  destruct (H t) as [H1 H2].
  split; [exact H1|]. split; [exact H2|]. apply drawn_so_far_length.
Qed.

(** ** Arrays handed to listeners, further *)

(** X20: every listener is handed an array of its own.  Whatever the
    listeners called before it did, to their arrays or to the records, the
    array made for the next listener is a new object, different from the
    store's array, and holds exactly the references the store's array
    holds. *)
Theorem each_listener_gets_its_own_copy
    (before : list Refs.Listener) (arr : nat) (h : Refs.Heap) (refs : list nat) :
  Refs.arrays h !! arr = Some refs →
  let h1 := (Refs.notify before arr h).1 in
  let items := (Refs.slice arr h1).1 in
  items ≠ arr ∧
  (items ∉ dom (Refs.arrays h1)) ∧
  Refs.arrays (Refs.slice arr h1).2 !! items = Some refs.
Proof.
  intros Harr h1 items.
  pose proof (notify_array_kept before arr h refs Harr) as Hkept. fold h1 in Hkept.
  destruct (slice_fresh arr h1 refs Hkept) as (Hne & _ & Hcopy & _).
  split; [exact Hne|]. split; [|exact Hcopy].
  apply is_fresh.
Qed.

Lemma each_listener_gets_its_own_copy_witness :
  let h := Refs.mkHeap {[ 0 := [5; 6] ]} ∅ in
  let h1 := (Refs.notify [[Refs.OnArray (λ _, []); Refs.OnRecord 0 (set_status Finished)]] 0 h).1 in
  (Refs.slice 0 h1).1 ≠ 0 ∧
  ((Refs.slice 0 h1).1 ∉ dom (Refs.arrays h1)) ∧
  Refs.arrays (Refs.slice 0 h1).2 !! (Refs.slice 0 h1).1 = Some [5; 6].
Proof.
  intros h h1.
  exact (each_listener_gets_its_own_copy
           [[Refs.OnArray (λ _, []); Refs.OnRecord 0 (set_status Finished)]] 0 h [5; 6] eq_refl).
Defined.

Lemma addProject_contents_witness :
  let this := Refs.mkProjectState [[Refs.OnArray (λ refs, refs ++ [7]); Refs.OnArray (λ _, [])]] 0 in
  let h := Refs.mkHeap {[ 0 := [] ]} ∅ in
  Refs.contents 0 (Refs.addProject "0.42" "Build API" "desc" (JS.int 3) this h).1
  = [mkProject "0.42" "Build API" "desc" (JS.int 3) Active].
Proof.
  intros this h.
  apply (addProject_contents this h [] "0.42" "Build API" "desc" (JS.int 3) eq_refl).
  - constructor.
  - repeat constructor.
Defined.

(** ** The earliest revision against the later ones *)

Lemma AppTs_simulation (configure : ProjectListType → Listener Page)
    (es : list Event) (s : AppTs.State) (a : App) :
  (∀ t, only_draws (configure t)) →
  loaded configure a →
  alerts (AppTs.page s) = alerts (page a) →
  form (AppTs.page s) = form (page a) →
  AppTs.console s = map (λ p, (title p, people p, description p)) (projects (projectState a)) →
  alerts (AppTs.page (AppTs.run es s)) = alerts (page (run es a)) ∧
  form (AppTs.page (AppTs.run es s)) = form (page (run es a)) ∧
  AppTs.console (AppTs.run es s)
  = map (λ p, (title p, people p, description p)) (projects (projectState (run es a))) ∧
  document (AppTs.page (AppTs.run es s)) = document (AppTs.page s).
Proof.
  intros Hdraws. revert s a.
  induction es as [|e es IH]; intros s a Hload Ha Hf Hc; [now repeat split|].
  cbn [AppTs.run run foldl].
  change (foldl _ (AppTs.step e s) es) with (AppTs.run es (AppTs.step e s)).
  change (foldl _ (step e a) es) with (run es (step e a)).
  assert (Hstep : alerts (AppTs.page (AppTs.step e s)) = alerts (page (step e a)) ∧
                  form (AppTs.page (AppTs.step e s)) = form (page (step e a)) ∧
                  AppTs.console (AppTs.step e s)
                  = map (λ p, (title p, people p, description p))
                      (projects (projectState (step e a))) ∧
                  document (AppTs.page (AppTs.step e s)) = document (AppTs.page s)).
  { destruct e as [ti de pe | rnd]; [now repeat split|].
    pose proof (submit_loaded configure Hdraws rnd a Hload) as Hs. cbn zeta in Hs.
    injection Hf as Hti Hde Hpe.
    unfold AppTs.step, AppTs.submitHandler, gatherUserInput, step.
    rewrite Hti, Hde, Hpe.
    destruct (validate _); cbn [negb].
    - destruct Hs as (pg' & -> & _ & Hpg'). cbn.
      rewrite map_app, Hc, Ha, Hpg'. now repeat split.
    - rewrite Hs. cbn. unfold form, alert. cbn. rewrite Ha, Hti, Hde, Hpe.
      now repeat split. }
  destruct Hstep as (Ha1 & Hf1 & Hc1 & Hd1).
  destruct (IH _ _ (step_loaded configure Hdraws e a Hload) Ha1 Hf1 Hc1)
    as (Ha2 & Hf2 & Hc2 & Hd2).
  repeat split; try assumption. now rewrite Hd2.
Qed.

(** X21: the earliest revision and the later ones treat the form alike.
    After the same events, the page of [app.ts] and the page of part_000
    (or part_001) have shown the same alerts and hold the same values in
    the three inputs; the console of [app.ts] has one entry (title, people,
    description) for each record the later store holds, in the same order;
    and the lists of [app.ts] are as they were when the page was loaded. *)
Theorem earliest_revision_agrees_on_the_form (boot0 : App) (es : list Event) :
  boot0 = Part000.boot ∨ boot0 = Part001.boot →
  let s := AppTs.run es AppTs.boot in
  let a := run es boot0 in
  alerts (AppTs.page s) = alerts (page a) ∧
  form (AppTs.page s) = form (page a) ∧
  AppTs.console s = map (λ p, (title p, people p, description p)) (projects (projectState a)) ∧
  document (AppTs.page s) = document (AppTs.page AppTs.boot).
Proof.
  intros Hboot s a.
  destruct (revisions_loaded boot0 [] Hboot) as (configure & Hdraws & Hload).
  apply (AppTs_simulation configure es AppTs.boot boot0 Hdraws Hload);
    destruct Hboot as [-> | ->]; reflexivity.
Qed.

Lemma earliest_revision_agrees_on_the_form_witness :
  let es := [Submit "0.1"; UserInput "Build API" "desc" "3"; Submit "0.2"] in
  alerts (AppTs.page (AppTs.run es AppTs.boot)) = ["Invalid user input!"] ∧
  AppTs.console (AppTs.run es AppTs.boot) = [("Build API", JS.int 3, "desc")].
Proof.
  intros es.
  destruct (earliest_revision_agrees_on_the_form Part000.boot es (or_introl eq_refl))
    as (Ha & _ & Hc & _).
  split; [rewrite Ha | rewrite Hc]; reflexivity.
Defined.

Lemma probe_receives_prefixes_witness :
  let first := mkProject "0.25" "First project" "one" (JS.int 1) Active in
  let second := mkProject "0.75" "Second project" "two" (JS.int 2) Active in
  (execs [Append "0.25" "First project" "one" (JS.int 1);
          Append "0.75" "Second project" "two" (JS.int 2)]
     (mkProjectState [probe] []) []).2
  = [[first]; [first; second]].
Proof.
  intros first second.
  apply (probe_receives_prefixes
           [Append "0.25" "First project" "one" (JS.int 1);
            Append "0.75" "Second project" "two" (JS.int 2)] [] []).
  repeat constructor.
Defined.
